(** * kitepp websocket client ([include/kitepp/kitews.hpp])

    A shallow embedding of the binary tick decoder, of the subscription ledger
    and of the message handlers of [kiteconnect::kiteWS], together with the
    properties of the streaming-client specification that concern them. *)

From Stdlib Require Import ZArith Lia Floats Uint63.
From stdpp Require Import base option list strings gmap fin_maps.
From Stdlib Require Import Strings.Byte.

Local Open Scope Z_scope.

(** ** Outcomes of C++ evaluation *)

(** Exceptions the code can raise: [kc::libException] carries its message,
    [std::out_of_range] is what [unordered_map::at] raises. *)
Inductive exn : Type :=
  | libException (msg : string)
  | std_out_of_range.

(** Behaviour the C++ standard leaves undefined and that the code can reach. *)
Inductive undefined : Type :=
  | OutOfBounds       (* an iterator or a [memcpy] leaves its buffer *)
  | InvalidRange      (* [vector(first, last)] with [last] before [first] *)
  | AssertionFailure. (* a rapidjson accessor used on the wrong kind of value *)

Inductive outcome (A : Type) : Type :=
  | Ok (a : A)
  | Throw (e : exn)
  | Undefined (u : undefined).
Arguments Ok {A} a.
Arguments Throw {A} e.
Arguments Undefined {A} u.

#[global] Instance outcome_ret : MRet outcome := fun A a => Ok a.
#[global] Instance outcome_bind : MBind outcome := fun A B f m =>
  match m with
  | Ok a => f a
  | Throw e => Throw e
  | Undefined u => Undefined u
  end.

(** ** Bytes and fixed-width integers *)

Definition byte_to_Z (b : byte) : Z := Z.of_N (Byte.to_N b).

(** Value of a byte string whose first byte is the least significant one. *)
Fixpoint le_unsigned (bs : list byte) : Z :=
  match bs with
  | [] => 0
  | b :: bs' => byte_to_Z b + 256 * le_unsigned bs'
  end.

(** Value of a byte string whose first byte is the most significant one. *)
Definition be_unsigned (bs : list byte) : Z :=
  fold_left (fun acc b => 256 * acc + byte_to_Z b) bs 0.

(** Two's complement reading of a [w]-bit pattern. *)
Definition to_signed (w : Z) (u : Z) : Z :=
  if u <? 2 ^ (w - 1) then u else u - 2 ^ w.

(** The integer types [_getNum] is instantiated at. *)
Inductive int_type : Type := int16_t | int32_t.

Definition sizeof (T : int_type) : nat :=
  match T with int16_t => 2%nat | int32_t => 4%nat end.

Definition bits (T : int_type) : Z := 8 * Z.of_nat (sizeof T).

(** [std::vector<char>(bytes.begin() + first, bytes.begin() + last)]: defined
    only for a range that lies inside [bytes]. *)
Definition vector_range (bytes : list byte) (first last : Z) : outcome (list byte) :=
  if (first <? 0) || (Z.of_nat (length bytes) <? last) then Undefined OutOfBounds
  else if last <? first then Undefined InvalidRange
  else Ok (take (Z.to_nat (last - first)) (drop (Z.to_nat first) bytes)).

Section ByteReader.

(** [WORDS_BIGENDIAN] is defined exactly on hosts that store integers most
    significant byte first; the macro comes from the build configuration. *)
Variable WORDS_BIGENDIAN : bool.

(** The value an object of type [T] has once [src] was copied over it. *)
Definition native_value (T : int_type) (src : list byte) : Z :=
  to_signed (bits T) (if WORDS_BIGENDIAN then be_unsigned src else le_unsigned src).

(** [std::memcpy(&value, src.data(), sizeof(T))]. *)
Definition memcpy_value (T : int_type) (src : list byte) : outcome Z :=
  if (length src <? sizeof T)%nat then Undefined OutOfBounds
  else Ok (native_value T (take (sizeof T) src)).

Definition _getNum (T : int_type) (bytes : list byte) (start end_ : Z) : outcome Z :=
  requiredBytes ← vector_range bytes start (end_ + 1);
  let requiredBytes :=
    if WORDS_BIGENDIAN then requiredBytes else reverse requiredBytes in
  memcpy_value T requiredBytes.

(** ** Packet splitter *)

(** [unsigned int] arithmetic. *)
Definition uint (z : Z) : Z := z mod 2 ^ 32.

(** One turn of the loop of [_splitPackets]; the state is
    [packetLengthStartIdx] and the packets collected so far. *)
Definition split_step (bytes : list byte) (st : Z * list (list byte))
  : outcome (Z * list (list byte)) :=
  let '(packetLengthStartIdx, packets) := st in
  let packetLengthEndIdx := uint (packetLengthStartIdx + 1) in
  packetLength ← _getNum int16_t bytes packetLengthStartIdx packetLengthEndIdx;
  let packetLengthStartIdx := uint (packetLengthEndIdx + packetLength + 1) in
  packet ← vector_range bytes (packetLengthEndIdx + 1) packetLengthStartIdx;
  Ok (packetLengthStartIdx, packets ++ [packet]).

Fixpoint split_loop (n : nat) (bytes : list byte) (st : Z * list (list byte))
  : outcome (Z * list (list byte)) :=
  match n with
  | O => Ok st
  | S n' => st' ← split_step bytes st; split_loop n' bytes st'
  end.

(** [for (int i = 1; i <= numberOfPackets; i++)] runs [numberOfPackets]
    times, and not at all when the count is zero or negative. *)
Definition _splitPackets (bytes : list byte) : outcome (list (list byte)) :=
  numberOfPackets ← _getNum int16_t bytes 0 1;
  st ← split_loop (Z.to_nat numberOfPackets) bytes (2, []);
  Ok st.2.

End ByteReader.

(** ** Ticks *)

(** The records of [responses.hpp], as far as the decoder assigns them: prices
    are [double], sizes, quantities and times hold the decoded integers. *)
Record depthWS : Type := { quantity : Z; price : float; orders : Z }.

Record ohlc : Type := { open : float; high : float; low : float; close : float }.

Record depth : Type := { buy : list depthWS; sell : list depthWS }.

Record tick : Type := {
  mode : string;
  instrumentToken : Z;
  isTradable : bool;
  lastPrice : float;
  OHLC : ohlc;
  netChange : float;
  lastTradedQuantity : Z;
  averageTradePrice : float;
  volumeTraded : Z;
  totalBuyQuantity : Z;
  totalSellQuantity : Z;
  lastTradeTime : Z;
  OI : Z;
  OIDayHigh : Z;
  OIDayLow : Z;
  timestamp : Z;
  marketDepth : depth
}.

(** Assignments to single members. *)
Definition set_open (v : float) (o : ohlc) : ohlc :=
  Build_ohlc v (high o) (low o) (close o).
Definition set_high (v : float) (o : ohlc) : ohlc :=
  Build_ohlc (open o) v (low o) (close o).
Definition set_low (v : float) (o : ohlc) : ohlc :=
  Build_ohlc (open o) (high o) v (close o).
Definition set_close (v : float) (o : ohlc) : ohlc :=
  Build_ohlc (open o) (high o) (low o) v.
Definition push_buy (d : depthWS) (m : depth) : depth :=
  Build_depth (buy m ++ [d]) (sell m).
Definition push_sell (d : depthWS) (m : depth) : depth :=
  Build_depth (buy m) (sell m ++ [d]).
Definition set_mode (v : string) (t : tick) : tick :=
  Build_tick v (instrumentToken t) (isTradable t) (lastPrice t) (OHLC t) (netChange t)
    (lastTradedQuantity t) (averageTradePrice t) (volumeTraded t) (totalBuyQuantity t)
    (totalSellQuantity t) (lastTradeTime t) (OI t) (OIDayHigh t) (OIDayLow t)
    (timestamp t) (marketDepth t).
Definition set_instrumentToken (v : Z) (t : tick) : tick :=
  Build_tick (mode t) v (isTradable t) (lastPrice t) (OHLC t) (netChange t)
    (lastTradedQuantity t) (averageTradePrice t) (volumeTraded t) (totalBuyQuantity t)
    (totalSellQuantity t) (lastTradeTime t) (OI t) (OIDayHigh t) (OIDayLow t)
    (timestamp t) (marketDepth t).
Definition set_isTradable (v : bool) (t : tick) : tick :=
  Build_tick (mode t) (instrumentToken t) v (lastPrice t) (OHLC t) (netChange t)
    (lastTradedQuantity t) (averageTradePrice t) (volumeTraded t) (totalBuyQuantity t)
    (totalSellQuantity t) (lastTradeTime t) (OI t) (OIDayHigh t) (OIDayLow t)
    (timestamp t) (marketDepth t).
Definition set_lastPrice (v : float) (t : tick) : tick :=
  Build_tick (mode t) (instrumentToken t) (isTradable t) v (OHLC t) (netChange t)
    (lastTradedQuantity t) (averageTradePrice t) (volumeTraded t) (totalBuyQuantity t)
    (totalSellQuantity t) (lastTradeTime t) (OI t) (OIDayHigh t) (OIDayLow t)
    (timestamp t) (marketDepth t).
Definition set_OHLC (v : ohlc) (t : tick) : tick :=
  Build_tick (mode t) (instrumentToken t) (isTradable t) (lastPrice t) v (netChange t)
    (lastTradedQuantity t) (averageTradePrice t) (volumeTraded t) (totalBuyQuantity t)
    (totalSellQuantity t) (lastTradeTime t) (OI t) (OIDayHigh t) (OIDayLow t)
    (timestamp t) (marketDepth t).
Definition set_netChange (v : float) (t : tick) : tick :=
  Build_tick (mode t) (instrumentToken t) (isTradable t) (lastPrice t) (OHLC t) v
    (lastTradedQuantity t) (averageTradePrice t) (volumeTraded t) (totalBuyQuantity t)
    (totalSellQuantity t) (lastTradeTime t) (OI t) (OIDayHigh t) (OIDayLow t)
    (timestamp t) (marketDepth t).
Definition set_lastTradedQuantity (v : Z) (t : tick) : tick :=
  Build_tick (mode t) (instrumentToken t) (isTradable t) (lastPrice t) (OHLC t)
    (netChange t) v (averageTradePrice t) (volumeTraded t) (totalBuyQuantity t)
    (totalSellQuantity t) (lastTradeTime t) (OI t) (OIDayHigh t) (OIDayLow t)
    (timestamp t) (marketDepth t).
Definition set_averageTradePrice (v : float) (t : tick) : tick :=
  Build_tick (mode t) (instrumentToken t) (isTradable t) (lastPrice t) (OHLC t)
    (netChange t) (lastTradedQuantity t) v (volumeTraded t) (totalBuyQuantity t)
    (totalSellQuantity t) (lastTradeTime t) (OI t) (OIDayHigh t) (OIDayLow t)
    (timestamp t) (marketDepth t).
Definition set_volumeTraded (v : Z) (t : tick) : tick :=
  Build_tick (mode t) (instrumentToken t) (isTradable t) (lastPrice t) (OHLC t)
    (netChange t) (lastTradedQuantity t) (averageTradePrice t) v (totalBuyQuantity t)
    (totalSellQuantity t) (lastTradeTime t) (OI t) (OIDayHigh t) (OIDayLow t)
    (timestamp t) (marketDepth t).
Definition set_totalBuyQuantity (v : Z) (t : tick) : tick :=
  Build_tick (mode t) (instrumentToken t) (isTradable t) (lastPrice t) (OHLC t)
    (netChange t) (lastTradedQuantity t) (averageTradePrice t) (volumeTraded t) v
    (totalSellQuantity t) (lastTradeTime t) (OI t) (OIDayHigh t) (OIDayLow t)
    (timestamp t) (marketDepth t).
Definition set_totalSellQuantity (v : Z) (t : tick) : tick :=
  Build_tick (mode t) (instrumentToken t) (isTradable t) (lastPrice t) (OHLC t)
    (netChange t) (lastTradedQuantity t) (averageTradePrice t) (volumeTraded t)
    (totalBuyQuantity t) v (lastTradeTime t) (OI t) (OIDayHigh t) (OIDayLow t)
    (timestamp t) (marketDepth t).
Definition set_lastTradeTime (v : Z) (t : tick) : tick :=
  Build_tick (mode t) (instrumentToken t) (isTradable t) (lastPrice t) (OHLC t)
    (netChange t) (lastTradedQuantity t) (averageTradePrice t) (volumeTraded t)
    (totalBuyQuantity t) (totalSellQuantity t) v (OI t) (OIDayHigh t) (OIDayLow t)
    (timestamp t) (marketDepth t).
Definition set_OI (v : Z) (t : tick) : tick :=
  Build_tick (mode t) (instrumentToken t) (isTradable t) (lastPrice t) (OHLC t)
    (netChange t) (lastTradedQuantity t) (averageTradePrice t) (volumeTraded t)
    (totalBuyQuantity t) (totalSellQuantity t) (lastTradeTime t) v (OIDayHigh t)
    (OIDayLow t) (timestamp t) (marketDepth t).
Definition set_OIDayHigh (v : Z) (t : tick) : tick :=
  Build_tick (mode t) (instrumentToken t) (isTradable t) (lastPrice t) (OHLC t)
    (netChange t) (lastTradedQuantity t) (averageTradePrice t) (volumeTraded t)
    (totalBuyQuantity t) (totalSellQuantity t) (lastTradeTime t) (OI t) v (OIDayLow t)
    (timestamp t) (marketDepth t).
Definition set_OIDayLow (v : Z) (t : tick) : tick :=
  Build_tick (mode t) (instrumentToken t) (isTradable t) (lastPrice t) (OHLC t)
    (netChange t) (lastTradedQuantity t) (averageTradePrice t) (volumeTraded t)
    (totalBuyQuantity t) (totalSellQuantity t) (lastTradeTime t) (OI t) (OIDayHigh t) v
    (timestamp t) (marketDepth t).
Definition set_timestamp (v : Z) (t : tick) : tick :=
  Build_tick (mode t) (instrumentToken t) (isTradable t) (lastPrice t) (OHLC t)
    (netChange t) (lastTradedQuantity t) (averageTradePrice t) (volumeTraded t)
    (totalBuyQuantity t) (totalSellQuantity t) (lastTradeTime t) (OI t) (OIDayHigh t)
    (OIDayLow t) v (marketDepth t).
Definition set_marketDepth (v : depth) (t : tick) : tick :=
  Build_tick (mode t) (instrumentToken t) (isTradable t) (lastPrice t) (OHLC t)
    (netChange t) (lastTradedQuantity t) (averageTradePrice t) (volumeTraded t)
    (totalBuyQuantity t) (totalSellQuantity t) (lastTradeTime t) (OI t) (OIDayHigh t)
    (OIDayLow t) (timestamp t) v.

(** ** Tick decoder *)

(** [unordered_map::at]. *)
Definition at_ {V : Type} (m : gmap string V) (k : string) : outcome V :=
  match m !! k with
  | Some v => Ok v
  | None => Throw std_out_of_range
  end.

Definition _segmentConstants : gmap string Z :=
  list_to_map
    [ ("nse"%string, 1); ("nfo"%string, 2); ("cds"%string, 3); ("bse"%string, 4);
      ("bfo"%string, 5); ("bsecds"%string, 6); ("mcx"%string, 7);
      ("mcxsx"%string, 8); ("indices"%string, 9) ].

(** Modelled from the spec: the mode constants of [userconstants.hpp], which
    section 6 gives as the strings ["ltp"], ["quote"] and ["full"]. *)
Definition MODE_LTP : string := "ltp".
Definition MODE_QUOTE : string := "quote".
Definition MODE_FULL : string := "full".

(** Conversion of an [int32_t] or [int16_t] to [double]; it is exact. *)
Definition double_of_int (z : Z) : float :=
  if z <? 0 then PrimFloat.opp (PrimFloat.of_uint63 (Uint63.of_Z (- z)))
  else PrimFloat.of_uint63 (Uint63.of_Z z).

Section TickDecoder.

Variable WORDS_BIGENDIAN : bool.

(** A default-constructed [kc::tick]; the type is declared in
    [responses.hpp]. *)
Variable default_tick : tick.

Abbreviation getNum := (_getNum WORDS_BIGENDIAN).

(** [_getNum<T>(packet, start, end) / divisor]. *)
Definition getPrice (T : int_type) (packet : list byte) (start end_ : Z)
    (divisor : float) : outcome float :=
  raw ← getNum T packet start end_;
  Ok (PrimFloat.div (double_of_int raw) divisor).

(** One turn of the depth loop of the 184-byte packet; the state is
    [depthStartIdx] and the tick. *)
Definition depth_step (packet : list byte) (divisor : float) (i : Z)
    (st : Z * tick) : outcome (Z * tick) :=
  let '(depthStartIdx, Tick) := st in
  q ← getNum int32_t packet depthStartIdx (uint (depthStartIdx + 3));
  p ← getPrice int32_t packet (uint (depthStartIdx + 4)) (uint (depthStartIdx + 7))
        divisor;
  o ← getNum int16_t packet (uint (depthStartIdx + 8)) (uint (depthStartIdx + 9));
  let depth := {| quantity := q; price := p; orders := o |} in
  let Tick :=
    if 5 <=? i then set_marketDepth (push_sell depth (marketDepth Tick)) Tick
    else set_marketDepth (push_buy depth (marketDepth Tick)) Tick in
  Ok (uint (depthStartIdx + 12), Tick).

Fixpoint depth_loop (packet : list byte) (divisor : float) (idxs : list Z)
    (st : Z * tick) : outcome (Z * tick) :=
  match idxs with
  | [] => Ok st
  | i :: idxs' =>
      st' ← depth_step packet divisor i st; depth_loop packet divisor idxs' st'
  end.

(** Body of the loop of [_parseBinaryMessage]: one packet, one tick. *)
Definition parse_packet (packet : list byte) : outcome tick :=
  let packetSize := Z.of_nat (length packet) in
  instrumentToken ← getNum int32_t packet 0 3;
  let segment := Z.land instrumentToken 0xff in
  cds ← at_ _segmentConstants "cds";
  let divisor := if segment =? cds then 10000000%float else 100%float in
  indices ← at_ _segmentConstants "indices";
  let tradable := if segment =? indices then false else true in
  let Tick := default_tick in
  let Tick := set_isTradable tradable Tick in
  let Tick := set_instrumentToken instrumentToken Tick in
  if packetSize =? 8 then
    let Tick := set_mode MODE_LTP Tick in
    v ← getPrice int32_t packet 4 7 divisor; let Tick := set_lastPrice v Tick in
    Ok Tick
  else if (packetSize =? 28) || (packetSize =? 32) then
    let Tick := set_mode (if packetSize =? 28 then MODE_QUOTE else MODE_FULL) Tick in
    v ← getPrice int32_t packet 4 7 divisor; let Tick := set_lastPrice v Tick in
    v ← getPrice int32_t packet 8 11 divisor;
    let Tick := set_OHLC (set_high v (OHLC Tick)) Tick in
    v ← getPrice int32_t packet 12 15 divisor;
    let Tick := set_OHLC (set_low v (OHLC Tick)) Tick in
    v ← getPrice int32_t packet 16 19 divisor;
    let Tick := set_OHLC (set_open v (OHLC Tick)) Tick in
    v ← getPrice int32_t packet 20 23 divisor;
    let Tick := set_OHLC (set_close v (OHLC Tick)) Tick in
    v ← getPrice int32_t packet 24 27 divisor; let Tick := set_netChange v Tick in
    if packetSize =? 32 then
      v ← getNum int32_t packet 28 33; let Tick := set_timestamp v Tick in
      Ok Tick
    else Ok Tick
  else if (packetSize =? 44) || (packetSize =? 184) then
    let Tick := set_mode (if packetSize =? 44 then MODE_QUOTE else MODE_FULL) Tick in
    v ← getPrice int32_t packet 4 7 divisor; let Tick := set_lastPrice v Tick in
    v ← getNum int32_t packet 8 11; let Tick := set_lastTradedQuantity v Tick in
    v ← getPrice int32_t packet 12 15 divisor;
    let Tick := set_averageTradePrice v Tick in
    v ← getNum int32_t packet 16 19; let Tick := set_volumeTraded v Tick in
    v ← getNum int32_t packet 20 23; let Tick := set_totalBuyQuantity v Tick in
    v ← getNum int32_t packet 24 27; let Tick := set_totalSellQuantity v Tick in
    v ← getPrice int32_t packet 28 31 divisor;
    let Tick := set_OHLC (set_open v (OHLC Tick)) Tick in
    v ← getPrice int32_t packet 32 35 divisor;
    let Tick := set_OHLC (set_high v (OHLC Tick)) Tick in
    v ← getPrice int32_t packet 36 39 divisor;
    let Tick := set_OHLC (set_low v (OHLC Tick)) Tick in
    v ← getPrice int32_t packet 40 43 divisor;
    let Tick := set_OHLC (set_close v (OHLC Tick)) Tick in
    let Tick :=
      set_netChange
        (PrimFloat.div
           (PrimFloat.mul (PrimFloat.sub (lastPrice Tick) (close (OHLC Tick)))
              100%float)
           (close (OHLC Tick))) Tick in
    if packetSize =? 184 then
      v ← getNum int32_t packet 44 47; let Tick := set_lastTradeTime v Tick in
      v ← getNum int32_t packet 48 51; let Tick := set_OI v Tick in
      v ← getNum int32_t packet 52 55; let Tick := set_OIDayHigh v Tick in
      v ← getNum int32_t packet 56 59; let Tick := set_OIDayLow v Tick in
      v ← getNum int32_t packet 60 63; let Tick := set_timestamp v Tick in
      st ← depth_loop packet divisor (seqZ 0 10) (64, Tick);
      Ok st.2
    else Ok Tick
  else Ok Tick.

Fixpoint parse_packets (packets : list (list byte)) : outcome (list tick) :=
  match packets with
  | [] => Ok []
  | packet :: packets' =>
      Tick ← parse_packet packet;
      ticks ← parse_packets packets';
      Ok (Tick :: ticks)
  end.

Definition _parseBinaryMessage (bytes : list byte) : outcome (list tick) :=
  packets ← _splitPackets WORDS_BIGENDIAN bytes;
  match packets with
  | [] => Ok []
  | _ => parse_packets packets
  end.

End TickDecoder.

(** ** JSON documents *)

(** A rapidjson document: requests are built as such values, inbound text
    frames are parsed into them. *)
#[warnings="-register-all"]
Inductive json : Type :=
  | JNull
  | JBool (b : bool)
  | JInt (z : Z)
  | JString (s : string)
  | JArray (vs : list json)
  | JObject (members : list (string * json)).

(** [FindMember]: the first member of that name. *)
Fixpoint FindMember (members : list (string * json)) (name : string) : option json :=
  match members with
  | [] => None
  | (k, v) :: members' => if decide (k = name) then Some v else FindMember members' name
  end.

(** [res[name]]: rapidjson asserts that the member exists. *)
Definition member (members : list (string * json)) (name : string) : outcome json :=
  match FindMember members name with
  | Some v => Ok v
  | None => Undefined AssertionFailure
  end.

Definition GetObject (v : json) : outcome (list (string * json)) :=
  match v with
  | JObject members => Ok members
  | _ => Undefined AssertionFailure
  end.

Definition GetString (v : json) : outcome string :=
  match v with
  | JString s => Ok s
  | _ => Undefined AssertionFailure
  end.

(** ** The client object *)

(** A connection handed out by the hub; [_WS] holds one or is null. *)
Inductive WebSocket : Type := socket (id : nat).

Inductive OpCode : Type := TEXT | BINARY | CLOSE | PING | PONG.

(** The members of [kiteWS] that the modelled methods read or write. A callback
    slot is a [std::function], which is either empty or set; times are points
    of the system clock. *)
Record kiteWS : Type := {
  onConnect : bool;
  onTicks : bool;
  onOrderUpdate : bool;
  onMessage : bool;
  onError : bool;
  onConnectError : bool;
  onTryReconnect : bool;
  onReconnectFail : bool;
  onClose : bool;
  _subbedInstruments : gmap Z string;
  _WS : option WebSocket;
  _reconnectDelay : Z;
  _reconnectTries : Z;
  _isReconnecting : bool;
  _lastPongTime : Z;
  _lastBeatTime : Z
}.

Definition _initReconnectDelay : Z := 2.

(** The host sets a callback by assigning the public member. *)
Definition set_onTicks (v : bool) (s : kiteWS) : kiteWS :=
  Build_kiteWS (onConnect s) v (onOrderUpdate s) (onMessage s) (onError s)
    (onConnectError s) (onTryReconnect s) (onReconnectFail s) (onClose s)
    (_subbedInstruments s) (_WS s) (_reconnectDelay s) (_reconnectTries s)
    (_isReconnecting s) (_lastPongTime s) (_lastBeatTime s).
Definition set__subbedInstruments (v : gmap Z string) (s : kiteWS) : kiteWS :=
  Build_kiteWS (onConnect s) (onTicks s) (onOrderUpdate s) (onMessage s) (onError s)
    (onConnectError s) (onTryReconnect s) (onReconnectFail s) (onClose s)
    v (_WS s) (_reconnectDelay s) (_reconnectTries s) (_isReconnecting s)
    (_lastPongTime s) (_lastBeatTime s).
Definition set__WS (v : option WebSocket) (s : kiteWS) : kiteWS :=
  Build_kiteWS (onConnect s) (onTicks s) (onOrderUpdate s) (onMessage s) (onError s)
    (onConnectError s) (onTryReconnect s) (onReconnectFail s) (onClose s)
    (_subbedInstruments s) v (_reconnectDelay s) (_reconnectTries s) (_isReconnecting s)
    (_lastPongTime s) (_lastBeatTime s).
Definition set__reconnectDelay (v : Z) (s : kiteWS) : kiteWS :=
  Build_kiteWS (onConnect s) (onTicks s) (onOrderUpdate s) (onMessage s) (onError s)
    (onConnectError s) (onTryReconnect s) (onReconnectFail s) (onClose s)
    (_subbedInstruments s) (_WS s) v (_reconnectTries s) (_isReconnecting s)
    (_lastPongTime s) (_lastBeatTime s).
Definition set__reconnectTries (v : Z) (s : kiteWS) : kiteWS :=
  Build_kiteWS (onConnect s) (onTicks s) (onOrderUpdate s) (onMessage s) (onError s)
    (onConnectError s) (onTryReconnect s) (onReconnectFail s) (onClose s)
    (_subbedInstruments s) (_WS s) (_reconnectDelay s) v (_isReconnecting s)
    (_lastPongTime s) (_lastBeatTime s).
Definition set__isReconnecting (v : bool) (s : kiteWS) : kiteWS :=
  Build_kiteWS (onConnect s) (onTicks s) (onOrderUpdate s) (onMessage s) (onError s)
    (onConnectError s) (onTryReconnect s) (onReconnectFail s) (onClose s)
    (_subbedInstruments s) (_WS s) (_reconnectDelay s) (_reconnectTries s) v
    (_lastPongTime s) (_lastBeatTime s).
Definition set__lastPongTime (v : Z) (s : kiteWS) : kiteWS :=
  Build_kiteWS (onConnect s) (onTicks s) (onOrderUpdate s) (onMessage s) (onError s)
    (onConnectError s) (onTryReconnect s) (onReconnectFail s) (onClose s)
    (_subbedInstruments s) (_WS s) (_reconnectDelay s) (_reconnectTries s)
    (_isReconnecting s) v (_lastBeatTime s).
Definition set__lastBeatTime (v : Z) (s : kiteWS) : kiteWS :=
  Build_kiteWS (onConnect s) (onTicks s) (onOrderUpdate s) (onMessage s) (onError s)
    (onConnectError s) (onTryReconnect s) (onReconnectFail s) (onClose s)
    (_subbedInstruments s) (_WS s) (_reconnectDelay s) (_reconnectTries s)
    (_isReconnecting s) (_lastPongTime s) v.

(** The object as the constructor and the member initialisers leave it: no
    callback set, nothing subscribed, no connection, clocks at their epoch. *)
Definition new_client : kiteWS :=
  {| onConnect := false; onTicks := false; onOrderUpdate := false; onMessage := false;
     onError := false; onConnectError := false; onTryReconnect := false;
     onReconnectFail := false; onClose := false;
     _subbedInstruments := ∅; _WS := None;
     _reconnectDelay := _initReconnectDelay; _reconnectTries := 0;
     _isReconnecting := false; _lastPongTime := 0; _lastBeatTime := 0 |}.

(** The ledger of the resubscription scenario of the specification. *)
Definition scenario_ledger : gmap Z string :=
  <[100 := "ltp"%string]> (<[200 := "quote"%string]> (<[300 := ""%string]>
    (<[400 := "full"%string]> ∅))).

(** A connected client that holds [ledger]. *)
Definition connected_client (ledger : gmap Z string) : kiteWS :=
  set__subbedInstruments ledger (set__WS (Some (socket 1)) new_client).

(** What a method does to the outside: frames put on the wire and calls of
    the host's callbacks, in the order they happen. *)
Inductive effect : Type :=
  | Send (ws : WebSocket) (req : json)
  | CallOnConnect
  | CallOnTicks (ticks : list tick)
  | CallOnOrderUpdate (data : list (string * json))
  | CallOnMessage (message : string)
  | CallOnError (code : Z) (message : string).

(** A method of the client: from the object before the call to the outcome,
    the object after it and the effects. An exception leaves the object as it
    was when the exception was raised. *)
Definition M (A : Type) : Type := kiteWS → outcome A * kiteWS * list effect.

#[global] Instance M_ret : MRet M := fun A a self => (Ok a, self, []).
#[global] Instance M_bind : MBind M := fun A B f m self =>
  match m self with
  | (Ok a, self', out) =>
      let '(r, self'', out') := f a self' in (r, self'', out ++ out')
  | (Throw e, self', out) => (Throw e, self', out)
  | (Undefined u, self', out) => (Undefined u, self', out)
  end.

Definition this : M kiteWS := fun self => (Ok self, self, []).
Definition assign (f : kiteWS → kiteWS) : M unit := fun self => (Ok tt, f self, []).
Definition emit (e : effect) : M unit := fun self => (Ok tt, self, [e]).
Definition throw {A : Type} (e : exn) : M A := fun self => (Throw e, self, []).
Definition lift {A : Type} (o : outcome A) : M A := fun self => (o, self, []).
Definition when (b : bool) (m : M unit) : M unit := if b then m else mret tt.

(** The three parts of what a call gives. *)
Definition result_of {A : Type} (r : outcome A * kiteWS * list effect) : outcome A := r.1.1.
Definition object_after {A : Type} (r : outcome A * kiteWS * list effect) : kiteWS := r.1.2.
Definition effects_of {A : Type} (r : outcome A * kiteWS * list effect) : list effect := r.2.

Definition isConnected (self : kiteWS) : bool :=
  match _WS self with Some _ => true | None => false end.

(** ** Subscription ledger *)

(** The documents the three requests are dumped from. *)
Definition subscribe_request (instrumentToks : list Z) : json :=
  JObject [ ("a"%string, JString "subscribe");
            ("v"%string, JArray (JInt <$> instrumentToks)) ].

Definition unsubscribe_request (instrumentToks : list Z) : json :=
  JObject [ ("a"%string, JString "unsubscribe");
            ("v"%string, JArray (JInt <$> instrumentToks)) ].

Definition mode_request (mode : string) (instrumentToks : list Z) : json :=
  JObject [ ("a"%string, JString "mode");
            ("v"%string, JArray [JString mode; JArray (JInt <$> instrumentToks)]) ].

Definition subscribe (instrumentToks : list Z) : M unit :=
  let req := subscribe_request instrumentToks in
  self ← this;
  match _WS self with
  | Some ws =>
      emit (Send ws req);;
      assign (fun self =>
        set__subbedInstruments
          (foldl (fun m tok => <[tok := ""%string]> m) (_subbedInstruments self)
             instrumentToks) self)
  | None => throw (libException "Not connected to websocket server")
  end.

Definition unsubscribe (instrumentToks : list Z) : M unit :=
  let req := unsubscribe_request instrumentToks in
  self ← this;
  match _WS self with
  | Some ws =>
      emit (Send ws req);;
      assign (fun self =>
        set__subbedInstruments
          (foldl (fun m tok => delete tok m) (_subbedInstruments self)
             instrumentToks) self)
  | None => throw (libException "Not connected to websocket server")
  end.

Definition setMode (mode : string) (instrumentToks : list Z) : M unit :=
  let req := mode_request mode instrumentToks in
  self ← this;
  match _WS self with
  | Some ws =>
      emit (Send ws req);;
      assign (fun self =>
        set__subbedInstruments
          (foldl (fun m tok => <[tok := mode]> m) (_subbedInstruments self)
             instrumentToks) self)
  | None => throw (libException "Not connected to websocket server")
  end.

(** One turn of the loop of [_resubInstruments] over the ledger; the state is
    [LTPInstruments], [quoteInstruments] and [fullInstruments]. *)
Definition resub_step (acc : list Z * list Z * list Z) (i : Z * string)
  : list Z * list Z * list Z :=
  let '(LTPInstruments, quoteInstruments, fullInstruments) := acc in
  let LTPInstruments :=
    if decide (i.2 = MODE_LTP) then LTPInstruments ++ [i.1] else LTPInstruments in
  let quoteInstruments :=
    if decide (i.2 = MODE_QUOTE) then quoteInstruments ++ [i.1] else quoteInstruments in
  let fullInstruments :=
    if decide (i.2 = MODE_FULL) then fullInstruments ++ [i.1] else fullInstruments in
  let quoteInstruments :=
    if decide (i.2 = ""%string) then quoteInstruments ++ [i.1] else quoteInstruments in
  (LTPInstruments, quoteInstruments, fullInstruments).

(** The three lists [_resubInstruments] builds; [map_to_list] fixes one of the
    orders in which an [unordered_map] may be traversed. *)
Definition resub_batches (ledger : gmap Z string) : list Z * list Z * list Z :=
  foldl resub_step ([], [], []) (map_to_list ledger).

Definition nonempty {A : Type} (l : list A) : bool :=
  match l with [] => false | _ => true end.

Definition _resubInstruments : M unit :=
  self ← this;
  let '(LTPInstruments, quoteInstruments, fullInstruments) :=
    resub_batches (_subbedInstruments self) in
  when (nonempty LTPInstruments) (setMode MODE_LTP LTPInstruments);;
  when (nonempty quoteInstruments) (setMode MODE_QUOTE quoteInstruments);;
  when (nonempty fullInstruments) (setMode MODE_FULL fullInstruments).

(** ** Inbound messages *)

Section Handlers.

Variable WORDS_BIGENDIAN : bool.
Variable default_tick : tick.

(** [rju::_parse], [rju::_getIfExists] and the [FMT] macro are declared in
    [rjutils.hpp] and [config.hpp]. [_parse text] is the parsed document;
    [_getIfExists members output name] is the value [output] has after the
    call; [FMT fmt args] is the formatted string. *)
Variable _parse : string → outcome json.
Variable _getIfExists : list (string * json) → string → string → outcome string.
Variable FMT : string → list string → string.

Definition _processTextMessage (message : list byte) : M unit :=
  self ← this;
  res ← lift (_parse (String.string_of_list_byte message));
  match res with
  | JObject members =>
      type ← lift (_getIfExists members ""%string "type"%string);
      if decide (type = ""%string) then
        throw (libException (FMT "Cannot recognize websocket message type {0}" [type]))
      else
        when (bool_decide (type = "order"%string) && onOrderUpdate self)
          (data ← lift (member members "data" ≫= GetObject);
           emit (CallOnOrderUpdate data));;
        when (bool_decide (type = "message"%string) && onMessage self)
          (emit (CallOnMessage (String.string_of_list_byte message)));;
        when (bool_decide (type = "error"%string) && onError self)
          (data ← lift (member members "data" ≫= GetString);
           emit (CallOnError 0 data))
  | _ => throw (libException "Expected a JSON object")
  end.

Definition is_binary (opCode : OpCode) : bool :=
  match opCode with BINARY => true | _ => false end.

Definition is_text (opCode : OpCode) : bool :=
  match opCode with TEXT => true | _ => false end.

(** The handler [_assignCallbacks] registers with [onMessage]; [now] is what
    [system_clock::now()] returns during the call. *)
Definition hub_onMessage (message : list byte) (opCode : OpCode) (now : Z) : M unit :=
  self ← this;
  if is_binary opCode && onTicks self then
    if (length message =? 1)%nat then assign (set__lastBeatTime now)
    else
      ticks ← lift (_parseBinaryMessage WORDS_BIGENDIAN default_tick message);
      emit (CallOnTicks ticks)
  else if is_text opCode then _processTextMessage message
  else mret tt.

(** The handler registered with [onConnection]. *)
Definition hub_onConnection (ws : WebSocket) (now : Z) : M unit :=
  assign (set__WS (Some ws));;
  assign (set__lastPongTime now);;
  assign (set__reconnectTries 0);;
  assign (set__reconnectDelay _initReconnectDelay);;
  assign (set__isReconnecting false);;
  self ← this;
  when (negb (bool_decide (_subbedInstruments self = ∅))) _resubInstruments;;
  when (onConnect self) (emit CallOnConnect).

(** The handler registered with [onPong]. *)
Definition hub_onPong (now : Z) : M unit := assign (set__lastPongTime now).

End Handlers.

(** A stand-in for [rju::_getIfExists] on examples: it hands out a string
    member and leaves [output] as it is otherwise. *)
Definition getIfExists_string (members : list (string * json)) (output name : string)
  : outcome string :=
  match FindMember members name with
  | Some (JString s) => Ok s
  | _ => Ok output
  end.

(** The first LTP packet of the end-to-end scenarios of the specification:
    token 1234, raw last price 10000. *)
Definition ltp_packet : list byte := [x00; x00; x04; xd2; x00; x00; x27; x10].

(** Thirty-four bytes of memory: bytes 28 and 29 hold [aa bb], bytes 30 to 33
    hold the big-endian 42. *)
Definition wide_buffer : list byte :=
  replicate 28 x00 ++ [xaa; xbb; x00; x00; x00; x2a].

(** ** Frames as the wire format lays them out *)

Definition byte_of_Z (z : Z) : byte :=
  default x00 (Byte.of_N (Z.to_N (z mod 256))).

(** The two bytes of a 16-bit quantity, most significant first. *)
Definition be16 (n : Z) : list byte := [byte_of_Z (n / 256); byte_of_Z n].

(** A packet on the wire: its length, then its payload. *)
Definition encode_packet (p : list byte) : list byte :=
  be16 (Z.of_nat (length p)) ++ p.

(** The frame of section 4.2 that carries [ps]: the number of packets, then the
    packets one after the other. *)
Definition encode_frame (ps : list (list byte)) : list byte :=
  be16 (Z.of_nat (length ps)) ++ concat (encode_packet <$> ps).

(** The largest value of an [int16_t]. *)
Definition INT16_MAX : Z := 32767.

(** Every packet is short enough for its length prefix. *)
Definition packets_fit (ps : list (list byte)) : Prop :=
  Forall (fun p => Z.of_nat (length p) ≤ INT16_MAX) ps.

(** Modelled from the spec: a tick whose members all hold the zero value of
    their type, which section 3 gives as the state of the members a packet
    does not define; the declaration of [kc::tick] is in [responses.hpp]. *)
Definition zero_tick : tick :=
  {| mode := ""; instrumentToken := 0; isTradable := false; lastPrice := 0%float;
     OHLC := {| open := 0%float; high := 0%float; low := 0%float; close := 0%float |};
     netChange := 0%float; lastTradedQuantity := 0; averageTradePrice := 0%float;
     volumeTraded := 0; totalBuyQuantity := 0; totalSellQuantity := 0;
     lastTradeTime := 0; OI := 0; OIDayHigh := 0; OIDayLow := 0; timestamp := 0;
     marketDepth := {| buy := []; sell := [] |} |}.



(** The stored modes [_resubInstruments] has a list for. *)
Definition known_mode (m : string) : Prop :=
  m = MODE_LTP ∨ m = MODE_QUOTE ∨ m = MODE_FULL ∨ m = ""%string.

#[global] Instance known_mode_dec (m : string) : Decision (known_mode m).
Proof. unfold known_mode. apply _. Defined.

(** ** Reconnection and disconnection *)

(** The members the handlers below only read: the credentials, and the
    constants the constructor fixes. *)
Record settings : Type := {
  _apiKey : string;
  _accessToken : string;
  _connectTimeout : Z;
  _enableReconnect : bool;
  _maxReconnectDelay : Z;
  _maxReconnectTries : Z
}.

Definition _connectURLFmt : string :=
  "wss://ws.kite.trade/?api_key={0}&access_token={1}".

(** What the handlers of the connection do to the outside, besides the
    effects of the methods above: the wait of the backoff, the request for a
    new connection, and the calls of the remaining callbacks. *)
Inductive hub_effect : Type :=
  | Client (e : effect)
  | SleepFor (seconds : Z)
  | HubConnect (url : string) (timeout : Z)
  | CallOnTryReconnect (attemptCount : Z)
  | CallOnReconnectFail
  | CallOnConnectError
  | CallOnClose (code : Z) (message : string).

(** A handler that raises nothing: from the object before the call to the
    object after it and the effects. *)
Definition H (A : Type) : Type := kiteWS → A * kiteWS * list hub_effect.

#[global] Instance H_ret : MRet H := fun A a self => (a, self, []).
#[global] Instance H_bind : MBind H := fun A B f m self =>
  let '(a, self', out) := m self in
  let '(b, self'', out') := f a self' in
  (b, self'', out ++ out').

Definition h_this : H kiteWS := fun self => (self, self, []).
Definition h_assign (f : kiteWS → kiteWS) : H unit := fun self => (tt, f self, []).
Definition h_emit (e : hub_effect) : H unit := fun self => (tt, self, [e]).
Definition h_when (b : bool) (m : H unit) : H unit := if b then m else mret tt.

(** The object and the effects a handler leaves. *)
Definition h_object {A : Type} (r : A * kiteWS * list hub_effect) : kiteWS := r.1.2.
Definition h_effects {A : Type} (r : A * kiteWS * list hub_effect) : list hub_effect := r.2.

Section Connection.

Variable cfg : settings.
Variable FMT : string → list string → string.

(** [_WS->close(code)] belongs to the websocket library, which may run the
    disconnection handler from inside the call. *)
Variable WS_close : WebSocket → Z → H unit.

Definition _connect : H unit :=
  h_emit (HubConnect (FMT _connectURLFmt [_apiKey cfg; _accessToken cfg])
            (_connectTimeout cfg)).

Definition _reconnect : H unit :=
  self ← h_this;
  if isConnected self then mret tt
  else
    h_assign (set__isReconnecting true);;
    h_assign (fun self => set__reconnectTries (uint (_reconnectTries self + 1)) self);;
    self ← h_this;
    if _reconnectTries self <=? _maxReconnectTries cfg then
      h_emit (SleepFor (_reconnectDelay self));;
      h_assign (fun self =>
        set__reconnectDelay
          (if _maxReconnectDelay cfg <? uint (_reconnectDelay self * 2)
           then _maxReconnectDelay cfg
           else uint (_reconnectDelay self * 2)) self);;
      self ← h_this;
      h_when (onTryReconnect self) (h_emit (CallOnTryReconnect (_reconnectTries self)));;
      _connect;;
      self ← h_this;
      if isConnected self then mret tt else mret tt
    else
      self ← h_this;
      h_when (onReconnectFail self) (h_emit CallOnReconnectFail);;
      h_assign (set__isReconnecting false).

(** The handler registered with [onError]. *)
Definition hub_onError : H unit :=
  self ← h_this;
  h_when (onConnectError self) (h_emit CallOnConnectError);;
  self ← h_this;
  match _WS self with
  | Some ws => WS_close ws 1006
  | None => mret tt
  end;;
  h_when (_enableReconnect cfg) _reconnect.

(** The handler registered with [onDisconnection]. *)
Definition hub_onDisconnection (code : Z) (reason : list byte) : H unit :=
  h_assign (set__WS None);;
  self ← h_this;
  h_when (negb (code =? 1000))
    (h_when (onError self)
       (h_emit (Client (CallOnError code (String.string_of_list_byte reason)))));;
  h_when (onClose self)
    (h_emit (CallOnClose code (String.string_of_list_byte reason)));;
  h_when (negb (code =? 1000))
    (self ← h_this;
     h_when (_enableReconnect cfg && negb (_isReconnecting self)) _reconnect).

(** [n] failures to connect in a row: the handler of [onError] runs once for
    each. *)
Fixpoint connect_failures (n : nat) : H unit :=
  match n with
  | O => mret tt
  | S n' => connect_failures n';; hub_onError
  end.

End Connection.

(** The waits among the effects of a handler, in order. *)
Definition sleeps (out : list hub_effect) : list Z :=
  omap (fun e => match e with SleepFor d => Some d | _ => None end) out.

(** The requests for a connection among the effects of a handler. *)
Definition connects (out : list hub_effect) : list (string * Z) :=
  omap (fun e => match e with HubConnect url t => Some (url, t) | _ => None end) out.

(** The mode [_resubInstruments] leaves in the ledger for an entry that held
    [m]. *)
Definition resub_mode (m : string) : string :=
  if decide (m = ""%string) then MODE_QUOTE else m.

(** The value of a 32-bit and of a 16-bit big-endian field at offset [k]. *)
Definition be32_at (bytes : list byte) (k : nat) : Z :=
  to_signed 32 (be_unsigned (take 4 (drop k bytes))).

Definition be16_at (bytes : list byte) (k : nat) : Z :=
  to_signed 16 (be_unsigned (take 2 (drop k bytes))).

(** What the decoder reads off a packet: the segment code in the low byte of
    the token, the divisor and the tradability it selects, a price field and
    an entry of the market depth at their offsets. *)
Definition segment_of (packet : list byte) : Z := Z.land (be32_at packet 0) 0xff.

Definition divisor_of (packet : list byte) : float :=
  if segment_of packet =? 3 then 10000000%float else 100%float.

Definition tradable_of (packet : list byte) : bool :=
  if segment_of packet =? 9 then false else true.

Definition price_at (packet : list byte) (k : nat) : float :=
  PrimFloat.div (double_of_int (be32_at packet k)) (divisor_of packet).

(** The derived net change of the 44-byte and 184-byte packets. *)
Definition net_change_of (packet : list byte) : float :=
  PrimFloat.div
    (PrimFloat.mul (PrimFloat.sub (price_at packet 4) (price_at packet 40)) 100%float)
    (price_at packet 40).

Definition depth_at (packet : list byte) (i : nat) : depthWS :=
  {| quantity := be32_at packet (64 + 12 * i);
     price := price_at packet (64 + 12 * i + 4);
     orders := be16_at packet (64 + 12 * i + 8) |}.

(** The ticks of the four packet shapes, member by member, over the
    default-constructed tick [d]. *)
Definition ltp_tick (d : tick) (packet : list byte) : tick :=
  {| mode := MODE_LTP; instrumentToken := be32_at packet 0;
     isTradable := tradable_of packet; lastPrice := price_at packet 4;
     OHLC := OHLC d; netChange := netChange d;
     lastTradedQuantity := lastTradedQuantity d;
     averageTradePrice := averageTradePrice d; volumeTraded := volumeTraded d;
     totalBuyQuantity := totalBuyQuantity d; totalSellQuantity := totalSellQuantity d;
     lastTradeTime := lastTradeTime d; OI := OI d; OIDayHigh := OIDayHigh d;
     OIDayLow := OIDayLow d; timestamp := timestamp d; marketDepth := marketDepth d |}.

Definition indices_quote_tick (d : tick) (packet : list byte) : tick :=
  {| mode := MODE_QUOTE; instrumentToken := be32_at packet 0;
     isTradable := tradable_of packet; lastPrice := price_at packet 4;
     OHLC := {| open := price_at packet 16; high := price_at packet 8;
                low := price_at packet 12; close := price_at packet 20 |};
     netChange := price_at packet 24;
     lastTradedQuantity := lastTradedQuantity d;
     averageTradePrice := averageTradePrice d; volumeTraded := volumeTraded d;
     totalBuyQuantity := totalBuyQuantity d; totalSellQuantity := totalSellQuantity d;
     lastTradeTime := lastTradeTime d; OI := OI d; OIDayHigh := OIDayHigh d;
     OIDayLow := OIDayLow d; timestamp := timestamp d; marketDepth := marketDepth d |}.

Definition quote_tick (d : tick) (packet : list byte) : tick :=
  {| mode := MODE_QUOTE; instrumentToken := be32_at packet 0;
     isTradable := tradable_of packet; lastPrice := price_at packet 4;
     OHLC := {| open := price_at packet 28; high := price_at packet 32;
                low := price_at packet 36; close := price_at packet 40 |};
     netChange := net_change_of packet;
     lastTradedQuantity := be32_at packet 8;
     averageTradePrice := price_at packet 12; volumeTraded := be32_at packet 16;
     totalBuyQuantity := be32_at packet 20; totalSellQuantity := be32_at packet 24;
     lastTradeTime := lastTradeTime d; OI := OI d; OIDayHigh := OIDayHigh d;
     OIDayLow := OIDayLow d; timestamp := timestamp d; marketDepth := marketDepth d |}.

Definition full_tick (d : tick) (packet : list byte) : tick :=
  {| mode := MODE_FULL; instrumentToken := be32_at packet 0;
     isTradable := tradable_of packet; lastPrice := price_at packet 4;
     OHLC := {| open := price_at packet 28; high := price_at packet 32;
                low := price_at packet 36; close := price_at packet 40 |};
     netChange := net_change_of packet;
     lastTradedQuantity := be32_at packet 8;
     averageTradePrice := price_at packet 12; volumeTraded := be32_at packet 16;
     totalBuyQuantity := be32_at packet 20; totalSellQuantity := be32_at packet 24;
     lastTradeTime := be32_at packet 44; OI := be32_at packet 48;
     OIDayHigh := be32_at packet 52; OIDayLow := be32_at packet 56;
     timestamp := be32_at packet 60;
     marketDepth :=
       {| buy := buy (marketDepth d) ++ (depth_at packet <$> [0; 1; 2; 3; 4]%nat);
          sell := sell (marketDepth d) ++ (depth_at packet <$> [5; 6; 7; 8; 9]%nat) |} |}.

(** The tick of a packet of any other length: the token and the tradability,
    and the default in every other member. *)
Definition bare_tick (d : tick) (packet : list byte) : tick :=
  set_instrumentToken (be32_at packet 0) (set_isTradable (tradable_of packet) d).

(** Stand-ins used to run the handlers on examples: a parser that gives a
    fixed document, a formatter that gives the format back, and a client on
    which the host has set every callback. *)
Definition parse_as (doc : json) : string → outcome json := fun _ => Ok doc.

Definition plain_FMT (fmt : string) (args : list string) : string := fmt.

Definition with_callbacks (s : kiteWS) : kiteWS :=
  Build_kiteWS true true true true true true true true true
    (_subbedInstruments s) (_WS s) (_reconnectDelay s) (_reconnectTries s)
    (_isReconnecting s) (_lastPongTime s) (_lastBeatTime s).

(** The delay the client holds after [n] attempts to reconnect in a row, for
    a maximal delay [maxDelay]: two seconds at first, then the doubled delay,
    capped. *)
Definition backoff_delay (maxDelay : Z) (n : nat) : Z :=
  match n with
  | O => _initReconnectDelay
  | S _ => Z.min (2 ^ (Z.of_nat n + 1)) maxDelay
  end.

(** A disconnected client that has not started to reconnect. *)
Definition idle (self : kiteWS) : Prop :=
  _WS self = None ∧ _reconnectTries self = 0
  ∧ _reconnectDelay self = _initReconnectDelay.

(** Settings of the reconnect scenario of the specification: reconnection
    enabled, at most three attempts, delays of at most five seconds. *)
Definition scenario_settings : settings :=
  {| _apiKey := "key"; _accessToken := "token"; _connectTimeout := 5000;
     _enableReconnect := true; _maxReconnectDelay := 5; _maxReconnectTries := 3 |}.

(** A stand-in for [_WS->close] on examples: the library does nothing the
    client can see. *)
Definition close_quietly (ws : WebSocket) (code : Z) : H unit := mret tt.

(** [getLastBeatTime], documented as the last time a heartbeat was
    received. *)
Definition getLastBeatTime (self : kiteWS) : Z := _lastBeatTime self.

(** ** The macro and the host apart *)

(** [_getNum] in a build whose configuration may misreport the host. [macro]
    says whether [WORDS_BIGENDIAN] is defined: it decides the reversal and
    nothing else. [host] says whether the host stores integers most
    significant byte first: it decides what the copy yields. The reader above
    is this one with both the same. *)
Module Build.

Definition _getNum (macro host : bool) (T : int_type) (bytes : list byte)
    (start end_ : Z) : outcome Z :=
  requiredBytes ← vector_range bytes start (end_ + 1);
  let requiredBytes := if macro then requiredBytes else reverse requiredBytes in
  memcpy_value host T requiredBytes.

End Build.

(** * Properties *)

Lemma outcome_bind_Ok {A B : Type} (a : A) (f : A → outcome B) : Ok a ≫= f = f a.
Proof. reflexivity. Qed.

Lemma outcome_bind_Undefined {A B : Type} (u : undefined) (f : A → outcome B) :
  Undefined u ≫= f = Undefined u.
Proof. reflexivity. Qed.

(** ** Byte reader *)

Lemma byte_to_Z_range (b : byte) : 0 ≤ byte_to_Z b < 256.
Proof.
  unfold byte_to_Z. pose proof (Byte.to_N_bounded b) as H.
  apply N2Z.inj_le in H. simpl in H. lia.
Qed.

Lemma byte_to_of_Z (z : Z) : byte_to_Z (byte_of_Z z) = z mod 256.
Proof.
  unfold byte_to_Z, byte_of_Z.
  assert (0 ≤ z mod 256 < 256) as Hr by (apply Z.mod_pos_bound; lia).
  destruct (Byte.of_N (Z.to_N (z mod 256))) as [b|] eqn:E; simpl.
  - apply Byte.to_of_N in E. rewrite E. lia.
  - apply Byte.of_N_None_iff in E. lia.
Qed.

Lemma be_unsigned_snoc (bs : list byte) (b : byte) :
  be_unsigned (bs ++ [b]) = 256 * be_unsigned bs + byte_to_Z b.
Proof. unfold be_unsigned. rewrite fold_left_app. reflexivity. Qed.

Lemma le_unsigned_reverse (bs : list byte) :
  le_unsigned (reverse bs) = be_unsigned bs.
Proof.
  induction bs as [|b bs IH] using rev_ind; [reflexivity|].
  rewrite reverse_app, be_unsigned_snoc. simpl. rewrite IH. lia.
Qed.

(** On either kind of host, what [_getNum] copies out of a reversed or
    unreversed range of exactly [sizeof T] bytes is its big-endian value. *)
Lemma native_value_exact (be : bool) (T : int_type) (r : list byte) :
  length r = sizeof T →
  native_value be T (take (sizeof T) (if be then r else reverse r))
  = to_signed (bits T) (be_unsigned r).
Proof.
  intros Hlen. unfold native_value. destruct be.
  - rewrite take_ge by lia. reflexivity.
  - rewrite take_ge by (rewrite length_reverse; lia).
    rewrite le_unsigned_reverse. reflexivity.
Qed.

Lemma vector_range_ok (bytes : list byte) (first last : Z) :
  0 ≤ first ≤ last → last ≤ Z.of_nat (length bytes) →
  vector_range bytes first last
  = Ok (take (Z.to_nat (last - first)) (drop (Z.to_nat first) bytes)).
Proof.
  intros H1 H2. unfold vector_range.
  destruct (Z.ltb_spec first 0); [lia|].
  destruct (Z.ltb_spec (Z.of_nat (length bytes)) last); [lia|]. simpl.
  destruct (Z.ltb_spec last first); [lia|]. reflexivity.
Qed.

Lemma vector_range_past_end (bytes : list byte) (first last : Z) :
  Z.of_nat (length bytes) < last → vector_range bytes first last = Undefined OutOfBounds.
Proof.
  intros H. unfold vector_range.
  destruct (Z.ltb_spec (Z.of_nat (length bytes)) last); [|lia].
  rewrite orb_true_r. reflexivity.
Qed.

Lemma vector_range_inv (bytes r : list byte) (first last : Z) :
  vector_range bytes first last = Ok r →
  0 ≤ first ≤ last ∧ last ≤ Z.of_nat (length bytes)
  ∧ r = take (Z.to_nat (last - first)) (drop (Z.to_nat first) bytes).
Proof.
  unfold vector_range.
  destruct (Z.ltb_spec first 0); simpl; [discriminate|].
  destruct (Z.ltb_spec (Z.of_nat (length bytes)) last); simpl; [discriminate|].
  destruct (Z.ltb_spec last first); [discriminate|].
  intros [= <-]. repeat split; lia.
Qed.

(** A read of exactly [sizeof T] bytes inside the buffer is the big-endian
    read of the wire format. *)
Lemma getNum_exact (be : bool) (T : int_type) (bytes : list byte) (start : Z) :
  0 ≤ start → start + Z.of_nat (sizeof T) ≤ Z.of_nat (length bytes) →
  _getNum be T bytes start (start + Z.of_nat (sizeof T) - 1)
  = Ok (to_signed (bits T)
          (be_unsigned (take (sizeof T) (drop (Z.to_nat start) bytes)))).
Proof.
  intros H0 Hfit. unfold _getNum.
  rewrite vector_range_ok by lia. simpl.
  replace (Z.to_nat (start + Z.of_nat (sizeof T) - 1 + 1 - start)) with (sizeof T) by lia.
  set (r := take (sizeof T) (drop (Z.to_nat start) bytes)).
  assert (length r = sizeof T) as Hr.
  { unfold r. rewrite length_take, length_drop. lia. }
  unfold memcpy_value.
  replace (length (if be then r else reverse r)) with (sizeof T)
    by (destruct be; rewrite ?length_reverse; lia).
  rewrite Nat.ltb_irrefl. f_equal. apply native_value_exact, Hr.
Qed.

Lemma getNum_past_end (be : bool) (T : int_type) (bytes : list byte) (start end_ : Z) :
  Z.of_nat (length bytes) < end_ + 1 → _getNum be T bytes start end_ = Undefined OutOfBounds.
Proof.
  intros H. unfold _getNum. rewrite vector_range_past_end by lia. reflexivity.
Qed.

(** Whenever [_getNum] returns, the range it was given lies inside the buffer
    and holds at least [sizeof T] bytes. *)
Lemma getNum_inv (be : bool) (T : int_type) (bytes : list byte) (start end_ v : Z) :
  _getNum be T bytes start end_ = Ok v →
  0 ≤ start ∧ end_ + 1 ≤ Z.of_nat (length bytes)
  ∧ Z.of_nat (sizeof T) ≤ end_ + 1 - start.
Proof.
  unfold _getNum. destruct (vector_range bytes start (end_ + 1)) as [r| |] eqn:E;
    simpl; try discriminate.
  apply vector_range_inv in E as (H1 & H2 & ->).
  unfold memcpy_value.
  destruct (Nat.ltb_spec (length (if be then take (Z.to_nat (end_ + 1 - start))
                                       (drop (Z.to_nat start) bytes)
                          else reverse (take (Z.to_nat (end_ + 1 - start))
                                       (drop (Z.to_nat start) bytes)))) (sizeof T))
    as [|Hge]; [discriminate|].
  intros _. repeat split; try lia.
  assert (sizeof T ≤ length (take (Z.to_nat (end_ + 1 - start))
                              (drop (Z.to_nat start) bytes)))%nat as Hlen
    by (destruct be; rewrite ?length_reverse in Hge; exact Hge).
  rewrite length_take in Hlen. lia.
Qed.

(** On a host that reverses, a range wider than [T] gives the value of its
    last [sizeof T] bytes: the copy takes the front of the reversed range. *)
Lemma getNum_wide_reversed (T : int_type) (bytes r : list byte) (start end_ : Z) :
  vector_range bytes start (end_ + 1) = Ok r →
  (sizeof T ≤ length r)%nat →
  _getNum false T bytes start end_
  = Ok (to_signed (bits T) (be_unsigned (drop (length r - sizeof T) r))).
Proof.
  intros Hr Hlen. unfold _getNum. rewrite Hr, outcome_bind_Ok.
  unfold memcpy_value. rewrite length_reverse.
  destruct (Nat.ltb_spec (length r) (sizeof T)); [lia|].
  unfold native_value. rewrite take_reverse, le_unsigned_reverse. reflexivity.
Qed.

(** ** Packet splitter *)

Lemma uint_small (z : Z) : 0 ≤ z < 4294967296 → uint z = z.
Proof. intros H. unfold uint. apply Z.mod_small. exact H. Qed.

Lemma be16_value (n : Z) :
  0 ≤ n ≤ INT16_MAX → to_signed (bits int16_t) (be_unsigned (be16 n)) = n.
Proof.
  unfold INT16_MAX. intros Hn. unfold be16, be_unsigned. simpl.
  rewrite !byte_to_of_Z.
  rewrite (Z.mod_small (n / 256) 256)
    by (split; [apply Z.div_pos; lia | apply Z.div_lt_upper_bound; lia]).
  pose proof (Z.div_mod n 256 ltac:(lia)) as Hdm.
  unfold to_signed, bits. simpl sizeof.
  change (2 ^ (8 * Z.of_nat 2 - 1)) with 32768.
  change (2 ^ (8 * Z.of_nat 2)) with 65536.
  destruct (Z.ltb_spec (256 * (256 * 0 + n / 256) + n mod 256) 32768); lia.
Qed.

Lemma length_be16 (n : Z) : length (be16 n) = 2%nat.
Proof. reflexivity. Qed.

Lemma length_encode_packet (p : list byte) :
  length (encode_packet p) = (2 + length p)%nat.
Proof. unfold encode_packet. rewrite length_app. reflexivity. Qed.

(** A length prefix is read back wherever it stands in the frame. *)
Lemma getNum_be16 (be : bool) (pre rest : list byte) (n : Z) :
  0 ≤ n ≤ INT16_MAX →
  _getNum be int16_t (pre ++ be16 n ++ rest)
    (Z.of_nat (length pre)) (Z.of_nat (length pre) + 1) = Ok n.
Proof.
  intros Hn.
  pose proof (getNum_exact be int16_t (pre ++ be16 n ++ rest) (Z.of_nat (length pre)))
    as H.
  simpl sizeof in H.
  replace (Z.of_nat (length pre) + Z.of_nat 2 - 1) with (Z.of_nat (length pre) + 1)
    in H by lia.
  rewrite H.
  - rewrite Nat2Z.id, drop_app_length.
    change (take 2 (be16 n ++ rest)) with (be16 n).
    rewrite be16_value by exact Hn. reflexivity.
  - lia.
  - rewrite !length_app, length_be16. lia.
Qed.

Lemma getNum_count (be : bool) (rest : list byte) (n : Z) :
  0 ≤ n ≤ INT16_MAX → _getNum be int16_t (be16 n ++ rest) 0 1 = Ok n.
Proof. intros Hn. exact (getNum_be16 be [] rest n Hn). Qed.

Lemma vector_range_middle (pre p rest : list byte) :
  vector_range (pre ++ p ++ rest)
    (Z.of_nat (length pre)) (Z.of_nat (length pre) + Z.of_nat (length p)) = Ok p.
Proof.
  rewrite vector_range_ok.
  - rewrite Nat2Z.id, drop_app_length.
    replace (Z.to_nat (Z.of_nat (length pre) + Z.of_nat (length p) - Z.of_nat (length pre)))
      with (length p) by lia.
    rewrite take_app_length. reflexivity.
  - lia.
  - rewrite !length_app. lia.
Qed.

(** One turn of the loop consumes one encoded packet. *)
Lemma split_step_packet (be : bool) (pre p rest : list byte) (acc : list (list byte)) :
  Z.of_nat (length p) ≤ INT16_MAX →
  Z.of_nat (length pre) + 2 + Z.of_nat (length p) < 4294967296 →
  split_step be (pre ++ encode_packet p ++ rest) (Z.of_nat (length pre), acc)
  = Ok (Z.of_nat (length (pre ++ encode_packet p)), acc ++ [p]).
Proof.
  intros Hp Hsmall. unfold split_step.
  rewrite (uint_small (Z.of_nat (length pre) + 1)) by lia.
  replace (pre ++ encode_packet p ++ rest)
    with (pre ++ be16 (Z.of_nat (length p)) ++ p ++ rest)
    by (unfold encode_packet; rewrite <- app_assoc; reflexivity).
  rewrite getNum_be16 by lia. rewrite outcome_bind_Ok.
  rewrite uint_small by lia.
  rewrite (app_assoc pre (be16 _) (p ++ rest)).
  replace (Z.of_nat (length pre) + 1 + 1)
    with (Z.of_nat (length (pre ++ be16 (Z.of_nat (length p)))))
    by (rewrite length_app, length_be16; lia).
  replace (Z.of_nat (length pre) + 1 + Z.of_nat (length p) + 1)
    with (Z.of_nat (length (pre ++ be16 (Z.of_nat (length p)))) + Z.of_nat (length p))
    by (rewrite length_app, length_be16; lia).
  rewrite vector_range_middle, outcome_bind_Ok.
  do 2 f_equal. rewrite !length_app, length_encode_packet, length_be16. lia.
Qed.

Lemma length_encoded_packets (ps : list (list byte)) :
  packets_fit ps →
  Z.of_nat (length (concat (encode_packet <$> ps))) ≤ Z.of_nat (length ps) * 32769.
Proof.
  unfold packets_fit, INT16_MAX. induction 1 as [|p ps Hp _ IH]; [simpl; lia|].
  rewrite fmap_cons, concat_cons, length_app, length_encode_packet, length_cons. lia.
Qed.

(** As many turns as there are packets consume them all, whatever follows. *)
Lemma split_loop_packets (be : bool) (ps : list (list byte)) :
  ∀ (pre rest : list byte) (acc : list (list byte)),
  packets_fit ps →
  Z.of_nat (length pre) + Z.of_nat (length (concat (encode_packet <$> ps))) < 4294967296 →
  split_loop be (length ps) (pre ++ concat (encode_packet <$> ps) ++ rest)
    (Z.of_nat (length pre), acc)
  = Ok (Z.of_nat (length (pre ++ concat (encode_packet <$> ps))), acc ++ ps).
Proof.
  induction ps as [|p ps IH]; intros pre rest acc Hfit Hsmall.
  - simpl. rewrite !app_nil_r. reflexivity.
  - apply Forall_cons in Hfit as [Hp Hfit].
    rewrite fmap_cons, concat_cons in *.
    rewrite length_app, length_encode_packet in Hsmall.
    rewrite <- (app_assoc (encode_packet p)).
    cbn [length split_loop].
    rewrite split_step_packet by lia. rewrite outcome_bind_Ok.
    rewrite (app_assoc pre (encode_packet p)).
    rewrite IH; [|exact Hfit|rewrite length_app, length_encode_packet; lia].
    do 2 f_equal.
    + rewrite <- !app_assoc. reflexivity.
    + rewrite <- app_assoc. reflexivity.
Qed.


(** The splitter on the frame that carries [ps], whatever follows the frame. *)
Lemma splitPackets_encode_frame_app (be : bool) (ps : list (list byte)) (rest : list byte) :
  Z.of_nat (length ps) ≤ INT16_MAX → packets_fit ps →
  _splitPackets be (encode_frame ps ++ rest) = Ok ps.
Proof.
  intros Hn Hfit. unfold _splitPackets, encode_frame.
  pose proof (length_encoded_packets ps Hfit) as Hlen. unfold INT16_MAX in Hn.
  rewrite <- app_assoc.
  rewrite getNum_count by (unfold INT16_MAX; lia).
  rewrite outcome_bind_Ok, Nat2Z.id.
  change 2 with (Z.of_nat (length (be16 (Z.of_nat (length ps))))).
  rewrite split_loop_packets; [reflexivity|exact Hfit|].
  rewrite length_be16. nia.
Qed.


(** C2: for a frame that is exactly the wire layout of its packets (a 2-byte
    big-endian count, then each packet as a 2-byte big-endian length and its
    payload), the header count read by the splitter is the number of packets,
    the splitter returns exactly that many payloads, in frame order, the
    layout of what it returns is the frame again, and a count of zero gives an
    empty result, whatever follows the count. *)
Theorem splitPackets_valid_frame (be : bool) (F : list byte) (ps : list (list byte)) :
  F = encode_frame ps →
  Z.of_nat (length ps) ≤ INT16_MAX →
  packets_fit ps →
  _getNum be int16_t F 0 1 = Ok (Z.of_nat (length ps))
  ∧ (∃ out : list (list byte),
       _splitPackets be F = Ok out
       ∧ length out = length ps
       ∧ out = ps
       ∧ encode_frame out = F
       ∧ (Z.of_nat (length ps) = 0 → out = []))
  ∧ (∀ rest : list byte, _splitPackets be (be16 0 ++ rest) = Ok []).
Proof.
  intros -> Hn Hfit. split; [|split].
  - unfold encode_frame. apply getNum_count. lia.
  - exists ps. repeat split.
    + rewrite <- (app_nil_r (encode_frame ps)).
      apply splitPackets_encode_frame_app; assumption.
    + intros H0. destruct ps; [reflexivity|]. simpl in H0. lia.
  - intros rest. unfold _splitPackets.
    rewrite getNum_count by (unfold INT16_MAX; lia). reflexivity.
Qed.

Lemma splitPackets_valid_frame_witness :
  _getNum false int16_t (encode_frame [[x01; x02]; [x03]]) 0 1 = Ok 2
  ∧ (∃ out : list (list byte),
       _splitPackets false (encode_frame [[x01; x02]; [x03]]) = Ok out
       ∧ length out = 2%nat
       ∧ out = [[x01; x02]; [x03]]
       ∧ encode_frame out = encode_frame [[x01; x02]; [x03]]
       ∧ (2 = 0 → out = []))
  ∧ (∀ rest : list byte, _splitPackets false (be16 0 ++ rest) = Ok []).
Proof.
  apply (splitPackets_valid_frame false (encode_frame [[x01; x02]; [x03]])
           [[x01; x02]; [x03]]).
  - reflexivity.
  - unfold INT16_MAX. simpl. lia.
  - repeat (constructor; [unfold INT16_MAX; simpl; lia|]). constructor.
Defined.




(** Where memory goes on behind that frame, the splitter returns a packet of
    the byte of the frame and the seven bytes behind it. *)
Example payload_read_in_wide_buffer :
  _splitPackets false
    ([x00; x01; x00; x08; x00] ++ [x11; x22; x33; x44; x55; x66; x77])
  = Ok [[x00; x11; x22; x33; x44; x55; x66; x77]].
Proof. vm_compute. reflexivity. Qed.

(** ** Tick decoder *)

Lemma segment_cds : at_ _segmentConstants "cds" = Ok 3.
Proof. vm_compute. reflexivity. Qed.

Lemma segment_indices : at_ _segmentConstants "indices" = Ok 9.
Proof. vm_compute. reflexivity. Qed.

(** Inversion of one bind of the decoder: the read returned. *)
Ltac bind_inv H :=
  match type of H with
  | (?m ≫= _) = Ok _ =>
      let v := fresh "v" in
      let E := fresh "E" in
      destruct m as [v| |] eqn:E; [rewrite outcome_bind_Ok in H | discriminate H..]
  end.

(** The depth loop touches [marketDepth] only. *)
Lemma depth_loop_frame (be : bool) (packet : list byte) (divisor : float) (idxs : list Z) :
  ∀ st st', depth_loop be packet divisor idxs st = Ok st' →
  instrumentToken st'.2 = instrumentToken st.2
  ∧ isTradable st'.2 = isTradable st.2
  ∧ lastPrice st'.2 = lastPrice st.2.
Proof.
  induction idxs as [|i idxs IH]; intros st st' H; simpl in H.
  - injection H as <-. auto.
  - bind_inv H. apply IH in H as (-> & -> & ->).
    destruct st as [idx Tick]. unfold depth_step in E.
    repeat bind_inv E. injection E as <-.
    destruct (5 <=? i); auto.
Qed.

Lemma getPrice_inv (be : bool) (T : int_type) (packet : list byte) (start end_ : Z)
    (divisor v : float) :
  getPrice be T packet start end_ divisor = Ok v →
  ∃ raw, _getNum be T packet start end_ = Ok raw
         ∧ v = PrimFloat.div (double_of_int raw) divisor.
Proof.
  unfold getPrice. intros H. bind_inv H. injection H as <-. eauto.
Qed.

(** C1: whenever the decoder produces a tick from a packet, the token of the
    tick is the big-endian int32 in bytes [0..4) of the packet; the segment
    code is the low 8 bits of that token; the tick is tradable unless the
    segment code is 9; and in every packet shape that carries a price the
    last price is the raw int32 of bytes [4..8) divided by 10000000.0 when
    the segment code is 3 and by 100.0 otherwise. *)
Theorem parse_packet_segment (be : bool) (default_tick : tick) (packet : list byte)
    (t : tick) :
  parse_packet be default_tick packet = Ok t →
  let token := to_signed 32 (be_unsigned (take 4 packet)) in
  let segment := Z.land token 0xff in
  let divisor := if segment =? 3 then 10000000%float else 100%float in
  (4 ≤ length packet)%nat
  ∧ instrumentToken t = token
  ∧ segment = token mod 2 ^ 8
  ∧ isTradable t = (if segment =? 9 then false else true)
  ∧ (length packet = 8%nat ∨ length packet = 28%nat ∨ length packet = 44%nat
     ∨ length packet = 184%nat →
     lastPrice t
     = PrimFloat.div
         (double_of_int (to_signed 32 (be_unsigned (take 4 (drop 4 packet))))) divisor).
Proof.
  intros H token segment divisor. unfold parse_packet in H.
  bind_inv H. rename v into tok, E into Etok.
  rewrite segment_cds, segment_indices, !outcome_bind_Ok in H.
  pose proof (getNum_inv _ _ _ _ _ _ Etok) as (_ & Hlen & _).
  pose proof (getNum_exact be int32_t packet 0 ltac:(lia) ltac:(simpl; lia)) as Hex.
  change (0 + Z.of_nat (sizeof int32_t) - 1) with 3 in Hex.
  rewrite Hex in Etok. injection Etok as Etok.
  change (to_signed (bits int32_t) (be_unsigned (take 4 (drop 0 packet)))) with token
    in Etok.
  subst tok. fold segment in H. fold divisor in H.
  assert (∀ v, getPrice be int32_t packet 4 7 divisor = Ok v →
               v = PrimFloat.div
                     (double_of_int (to_signed 32 (be_unsigned (take 4 (drop 4 packet)))))
                     divisor) as Hprice.
  { intros v Hv. apply getPrice_inv in Hv as (raw & Hraw & ->).
    pose proof (getNum_inv _ _ _ _ _ _ Hraw) as (_ & Hlen' & _).
    pose proof (getNum_exact be int32_t packet 4 ltac:(lia) ltac:(simpl; lia)) as Hex'.
    change (4 + Z.of_nat (sizeof int32_t) - 1) with 7 in Hex'.
    rewrite Hex' in Hraw. injection Hraw as <-. reflexivity. }
  split; [lia|].
  assert (segment = token mod 2 ^ 8) as Hseg.
  { unfold segment. change 0xff with (Z.ones 8). apply Z.land_ones. lia. }
  destruct (Z.of_nat (length packet) =? 8) eqn:E8.
  { bind_inv H. injection H as <-. apply Hprice in E. auto. }
  destruct ((Z.of_nat (length packet) =? 28) || (Z.of_nat (length packet) =? 32)) eqn:E28.
  { repeat bind_inv H. apply Hprice in E.
    destruct (Z.of_nat (length packet) =? 32);
      [bind_inv H|]; injection H as <-; auto. }
  destruct ((Z.of_nat (length packet) =? 44) || (Z.of_nat (length packet) =? 184)) eqn:E44.
  { repeat bind_inv H. apply Hprice in E.
    destruct (Z.of_nat (length packet) =? 184).
    - repeat bind_inv H. injection H as <-.
      match goal with Hd : depth_loop _ _ _ _ _ = Ok _ |- _ =>
        apply depth_loop_frame in Hd as (-> & -> & ->) end.
      auto.
    - injection H as <-. auto. }
  injection H as <-. repeat split; auto.
  intros Hshape. apply Z.eqb_neq in E8.
  apply orb_false_iff in E28 as [E28 _]. apply orb_false_iff in E44 as [E44 E184].
  apply Z.eqb_neq in E28, E44, E184. lia.
Qed.

Lemma parse_packet_segment_witness :
  ∃ t : tick,
    parse_packet false zero_tick ltp_packet = Ok t
    ∧ let token := to_signed 32 (be_unsigned (take 4 ltp_packet)) in
      let segment := Z.land token 0xff in
      let divisor := if segment =? 3 then 10000000%float else 100%float in
      (4 ≤ length ltp_packet)%nat
      ∧ instrumentToken t = token
      ∧ segment = token mod 2 ^ 8
      ∧ isTradable t = (if segment =? 9 then false else true)
      ∧ (length ltp_packet = 8%nat ∨ length ltp_packet = 28%nat
         ∨ length ltp_packet = 44%nat ∨ length ltp_packet = 184%nat →
         lastPrice t
         = PrimFloat.div
             (double_of_int (to_signed 32 (be_unsigned (take 4 (drop 4 ltp_packet)))))
             divisor).
Proof.
  eexists. split; [vm_compute; reflexivity|].
  apply (parse_packet_segment false zero_tick ltp_packet). vm_compute. reflexivity.
Defined.

Example ltp_scenario :
  _parseBinaryMessage false zero_tick ([x00; x01; x00; x08] ++ ltp_packet)
  = Ok [set_lastPrice 100%float
          (set_mode MODE_LTP (set_instrumentToken 1234 (set_isTradable true zero_tick)))].
Proof. vm_compute. reflexivity. Qed.

(** C8 (what the code does instead): the timestamp of the 32-byte packet is
    read through [_getNum<int32_t>(packet, 28, 33)], a range of six bytes that
    ends two bytes past the packet; the read is out of bounds, so on a packet
    of length 32 the decoder has no defined result and the timestamp is not
    the int32 in bytes [28..32). *)
Theorem parse_packet_indices_full (be : bool) (default_tick : tick) (packet : list byte) :
  length packet = 32%nat →
  parse_packet be default_tick packet = Undefined OutOfBounds.
Proof.
  intros Hlen.
  do 32 (destruct packet as [|? packet]; [discriminate Hlen|]).
  destruct packet; [|discriminate Hlen].
  destruct be; reflexivity.
Qed.

Lemma parse_packet_indices_full_witness :
  parse_packet false zero_tick (replicate 32 x00) = Undefined OutOfBounds.
Proof.
  apply (parse_packet_indices_full false zero_tick (replicate 32 x00)). reflexivity.
Defined.

(** Where memory goes on behind the range, the read of the timestamp takes
    the bytes at offsets 30 to 33, not those at 28 to 31. *)
Example timestamp_read_in_wide_buffer :
  _getNum false int32_t wide_buffer 28 33 = Ok 42
  ∧ _getNum false int32_t wide_buffer 28 31 = Ok (-1430585344).
Proof. split; vm_compute; reflexivity. Qed.

(** ** Subscription ledger *)

Section Ledger.

Implicit Types (ledger : gmap Z string) (toks : list Z) (self : kiteWS).

(** [m[tok] = v] for every [tok] of a list. *)
Lemma lookup_foldl_insert (v : string) toks :
  ∀ ledger (k : Z),
  foldl (fun m tok => <[tok := v]> m) ledger toks !! k
  = if decide (k ∈ toks) then Some v else ledger !! k.
Proof.
  induction toks as [|x toks IH]; intros ledger k; cbn [foldl].
  - rewrite decide_False by apply not_elem_of_nil. reflexivity.
  - rewrite IH. destruct (decide (k ∈ toks)) as [Hin|Hnin].
    + rewrite decide_True by (apply elem_of_cons; auto). reflexivity.
    + destruct (decide (k = x)) as [->|Hne].
      * rewrite decide_True by (apply elem_of_cons; auto). apply lookup_insert_eq.
      * rewrite decide_False by (apply not_elem_of_cons; auto).
        apply lookup_insert_ne. congruence.
Qed.

Lemma subscribe_connected self (ws : WebSocket) toks :
  _WS self = Some ws →
  subscribe toks self
  = (Ok tt,
     set__subbedInstruments
       (foldl (fun m tok => <[tok := ""%string]> m) (_subbedInstruments self) toks) self,
     [Send ws (subscribe_request toks)]).
Proof.
  intros Hws. unfold subscribe, mbind, M_bind, this. rewrite Hws. reflexivity.
Qed.

Lemma setMode_connected self (ws : WebSocket) (mode : string) toks :
  _WS self = Some ws →
  setMode mode toks self
  = (Ok tt,
     set__subbedInstruments
       (foldl (fun m tok => <[tok := mode]> m) (_subbedInstruments self) toks) self,
     [Send ws (mode_request mode toks)]).
Proof.
  intros Hws. unfold setMode, mbind, M_bind, this. rewrite Hws. reflexivity.
Qed.

Lemma M_bind_Ok {A B : Type} (m : M A) (k : A → M B) self self' self'' a r out out' :
  m self = (Ok a, self', out) → k a self' = (r, self'', out') →
  (m ≫= k) self = (r, self'', out ++ out').
Proof. intros Hm Hk. unfold mbind, M_bind. rewrite Hm, Hk. reflexivity. Qed.

(** The lists of [_resubInstruments], read off the traversal of the ledger. *)
Lemma foldl_resub_step (l : list (Z * string)) :
  ∀ a b c : list Z,
  foldl resub_step (a, b, c) l
  = (a ++ (filter (fun i => i.2 = MODE_LTP) l).*1,
     b ++ (filter (fun i => i.2 = MODE_QUOTE ∨ i.2 = ""%string) l).*1,
     c ++ (filter (fun i => i.2 = MODE_FULL) l).*1).
Proof.
  induction l as [|[k m] l IH]; intros a b c.
  - simpl. rewrite !app_nil_r. reflexivity.
  - cbn [foldl]. unfold resub_step at 2. cbn [fst snd]. rewrite !filter_cons.
    cbn [fst snd].
    destruct (decide (m = MODE_LTP)) as [->|H1];
      [|destruct (decide (m = MODE_QUOTE)) as [->|H2];
        [|destruct (decide (m = MODE_FULL)) as [->|H3];
          [|destruct (decide (m = ""%string)) as [->|H4]]]].
    all: repeat case_decide; try discriminate; try tauto.
    all: rewrite IH, ?fmap_cons, <- ?app_assoc; reflexivity.
Qed.

Lemma resub_batches_filter ledger :
  resub_batches ledger
  = ((filter (fun i => i.2 = MODE_LTP) (map_to_list ledger)).*1,
     (filter (fun i => i.2 = MODE_QUOTE ∨ i.2 = ""%string) (map_to_list ledger)).*1,
     (filter (fun i => i.2 = MODE_FULL) (map_to_list ledger)).*1).
Proof. unfold resub_batches. apply foldl_resub_step. Qed.

Lemma elem_of_batch (P : string → Prop) `{∀ m, Decision (P m)} ledger (k : Z) :
  k ∈ (filter (fun i : Z * string => P i.2) (map_to_list ledger)).*1
  ↔ ∃ m, ledger !! k = Some m ∧ P m.
Proof.
  rewrite list_elem_of_fmap. split.
  - intros [[k' m] [-> Hin]]. apply list_elem_of_filter in Hin as [HP Hin].
    apply elem_of_map_to_list in Hin. eauto.
  - intros (m & Hm & HP). exists (k, m). split; [reflexivity|].
    apply list_elem_of_filter. split; [exact HP|]. apply elem_of_map_to_list, Hm.
Qed.

Lemma filter_all {A : Type} (P : A → Prop) `{∀ x, Decision (P x)} (l : list A) :
  Forall P l → filter P l = l.
Proof.
  induction 1 as [|x l Hx _ IH]; [reflexivity|].
  rewrite filter_cons_True by exact Hx. f_equal. exact IH.
Qed.

(** Together the three lists hold one token for each entry whose mode has a
    list, and none for the others. *)
Lemma length_batches (l : list (Z * string)) :
  (length (filter (fun i => i.2 = MODE_LTP) l)
   + length (filter (fun i => i.2 = MODE_QUOTE ∨ i.2 = ""%string) l)
   + length (filter (fun i => i.2 = MODE_FULL) l)
   = length (filter (fun i => known_mode i.2) l))%nat.
Proof.
  induction l as [|[k m] l IH]; [reflexivity|].
  rewrite !filter_cons. cbn [fst snd].
  destruct (decide (m = MODE_LTP)) as [->|H1];
    [|destruct (decide (m = MODE_QUOTE)) as [->|H2];
      [|destruct (decide (m = MODE_FULL)) as [->|H3];
        [|destruct (decide (m = ""%string)) as [->|H4]]]].
  all: repeat case_decide.
  all: unfold known_mode, MODE_LTP, MODE_QUOTE, MODE_FULL in *.
  all: try (exfalso; intuition congruence).
  all: cbn [length]; lia.
Qed.

Lemma length_resub_batches ledger (LTP quote full : list Z) :
  resub_batches ledger = (LTP, quote, full) →
  (length LTP + length quote + length full
   = length (filter (fun i => known_mode i.2) (map_to_list ledger)))%nat.
Proof.
  rewrite resub_batches_filter. intros [= <- <- <-].
  rewrite !length_fmap. apply length_batches.
Qed.

(** A conditional [setMode] of [_resubInstruments] on a connected client. *)
Lemma when_setMode self (ws : WebSocket) (mode : string) toks :
  _WS self = Some ws →
  ∃ self', when (nonempty toks) (setMode mode toks) self
           = (Ok tt, self',
              if nonempty toks then [Send ws (mode_request mode toks)] else [])
           ∧ _WS self' = Some ws.
Proof.
  intros Hws. destruct toks as [|tok toks]; cbn [nonempty when].
  - exists self. split; [reflexivity|exact Hws].
  - eexists. split; [apply setMode_connected, Hws|exact Hws].
Qed.

Lemma resubInstruments_connected self (ws : WebSocket) (LTP quote full : list Z) :
  _WS self = Some ws →
  resub_batches (_subbedInstruments self) = (LTP, quote, full) →
  ∃ self', _resubInstruments self
           = (Ok tt, self',
              (if nonempty LTP then [Send ws (mode_request MODE_LTP LTP)] else [])
              ++ (if nonempty quote then [Send ws (mode_request MODE_QUOTE quote)] else [])
              ++ (if nonempty full then [Send ws (mode_request MODE_FULL full)] else [])).
Proof.
  intros Hws Hb.
  destruct (when_setMode self ws MODE_LTP LTP Hws) as (s1 & E1 & Hws1).
  destruct (when_setMode s1 ws MODE_QUOTE quote Hws1) as (s2 & E2 & Hws2).
  destruct (when_setMode s2 ws MODE_FULL full Hws2) as (s3 & E3 & Hws3).
  exists s3. unfold _resubInstruments.
  change (?x = ?y) with (x = (y.1.1, y.1.2, [] ++ y.2)).
  eapply M_bind_Ok; [reflexivity|]. rewrite Hb.
  eapply M_bind_Ok; [exact E1|]. eapply M_bind_Ok; [exact E2|exact E3].
Qed.

Lemma isConnected_false self : isConnected self = false → _WS self = None.
Proof. unfold isConnected. destruct (_WS self); [discriminate|reflexivity]. Qed.

Lemma isConnected_true self : isConnected self = true → ∃ ws, _WS self = Some ws.
Proof. unfold isConnected. destruct (_WS self); [eauto|discriminate]. Qed.

End Ledger.

(** C4 (as the code has it): on a connected client [subscribe] assigns the
    unset mode to every token of its argument, inserting the entry when the
    token is absent and overwriting the stored mode when it is present; the
    entries of all other tokens are unchanged. *)
Theorem subscribe_ledger (self : kiteWS) (toks : list Z) (tok : Z) :
  isConnected self = true →
  result_of (subscribe toks self) = Ok tt
  ∧ (tok ∈ toks →
     _subbedInstruments (object_after (subscribe toks self)) !! tok = Some ""%string)
  ∧ (tok ∉ toks →
     _subbedInstruments (object_after (subscribe toks self)) !! tok
     = _subbedInstruments self !! tok).
Proof.
  intros Hc. apply isConnected_true in Hc as [ws Hws].
  rewrite (subscribe_connected self ws toks Hws).
  unfold result_of, object_after. simpl. rewrite lookup_foldl_insert.
  repeat split.
  - intros Hin. rewrite decide_True by exact Hin. reflexivity.
  - intros Hnin. rewrite decide_False by exact Hnin. reflexivity.
Qed.

Lemma subscribe_ledger_witness :
  let self := set__WS (Some (socket 1)) new_client in
  result_of (subscribe [5] self) = Ok tt
  ∧ (5 ∈ [5] →
     _subbedInstruments (object_after (subscribe [5] self)) !! 5 = Some ""%string)
  ∧ (5 ∉ [5] →
     _subbedInstruments (object_after (subscribe [5] self)) !! 5
     = _subbedInstruments self !! 5).
Proof.
  apply (subscribe_ledger (set__WS (Some (socket 1)) new_client) [5] 5). reflexivity.
Defined.

(** A connected client that holds token 5 in FULL mode: after [subscribe] of
    that token the stored mode is the unset one, not the one it had. *)
Lemma subscribe_overwrites_mode :
  let self :=
    set__subbedInstruments {[ 5 := MODE_FULL ]} (set__WS (Some (socket 1)) new_client) in
  isConnected self = true
  ∧ 5 ∈ [5]
  ∧ _subbedInstruments self !! 5 = Some MODE_FULL
  ∧ _subbedInstruments (object_after (subscribe [5] self)) !! 5 ≠ Some MODE_FULL.
Proof.
  repeat split; [set_solver|vm_compute; discriminate].
Qed.

(** C5: on a client that is not connected, each of [subscribe],
    [unsubscribe] and [setMode] throws the not-connected exception, and the
    client, its ledger included, is as it was before the call; nothing is
    sent. *)
Theorem not_connected_atomic (self : kiteWS) (toks : list Z) (mode : string) :
  isConnected self = false →
  let NotConnected := libException "Not connected to websocket server" in
  subscribe toks self = (Throw NotConnected, self, [])
  ∧ unsubscribe toks self = (Throw NotConnected, self, [])
  ∧ setMode mode toks self = (Throw NotConnected, self, [])
  ∧ _subbedInstruments (object_after (subscribe toks self)) = _subbedInstruments self
  ∧ _subbedInstruments (object_after (unsubscribe toks self)) = _subbedInstruments self
  ∧ _subbedInstruments (object_after (setMode mode toks self)) = _subbedInstruments self.
Proof.
  intros Hc NotConnected. apply isConnected_false in Hc.
  assert (subscribe toks self = (Throw NotConnected, self, [])) as H1
    by (unfold subscribe, mbind, M_bind, this; rewrite Hc; reflexivity).
  assert (unsubscribe toks self = (Throw NotConnected, self, [])) as H2
    by (unfold unsubscribe, mbind, M_bind, this; rewrite Hc; reflexivity).
  assert (setMode mode toks self = (Throw NotConnected, self, [])) as H3
    by (unfold setMode, mbind, M_bind, this; rewrite Hc; reflexivity).
  rewrite H1, H2, H3. repeat split.
Qed.

Lemma not_connected_atomic_witness :
  let self := set__subbedInstruments {[ 5 := MODE_FULL ]} new_client in
  let NotConnected := libException "Not connected to websocket server" in
  subscribe [5; 6] self = (Throw NotConnected, self, [])
  ∧ unsubscribe [5; 6] self = (Throw NotConnected, self, [])
  ∧ setMode MODE_LTP [5; 6] self = (Throw NotConnected, self, [])
  ∧ _subbedInstruments (object_after (subscribe [5; 6] self)) = _subbedInstruments self
  ∧ _subbedInstruments (object_after (unsubscribe [5; 6] self)) = _subbedInstruments self
  ∧ _subbedInstruments (object_after (setMode MODE_LTP [5; 6] self))
    = _subbedInstruments self.
Proof.
  apply (not_connected_atomic (set__subbedInstruments {[ 5 := MODE_FULL ]} new_client)
           [5; 6] MODE_LTP).
  reflexivity.
Defined.

(** ** Resubscription *)

(** C6 (as the code has it): for every ledger all of whose stored modes are
    ltp, quote, full or unset, on a connected client the resubscription
    procedure sorts the entries into three lists by mode, the unset entries
    going to the quote list; the lengths of the three lists add up to the
    number of entries; and the procedure sends exactly one mode request,
    ["ltp"], ["quote"] and ["full"] in that order, for each list that is not
    empty. *)
Theorem resubInstruments_batches (self : kiteWS) (ws : WebSocket)
    (LTP quote full : list Z) :
  _WS self = Some ws →
  map_Forall (fun _ m => known_mode m) (_subbedInstruments self) →
  resub_batches (_subbedInstruments self) = (LTP, quote, full) →
  (∀ k, k ∈ LTP ↔ _subbedInstruments self !! k = Some MODE_LTP)
  ∧ (∀ k, k ∈ quote ↔ _subbedInstruments self !! k = Some MODE_QUOTE
                      ∨ _subbedInstruments self !! k = Some ""%string)
  ∧ (∀ k, k ∈ full ↔ _subbedInstruments self !! k = Some MODE_FULL)
  ∧ (length LTP + length quote + length full = size (_subbedInstruments self))%nat
  ∧ result_of (_resubInstruments self) = Ok tt
  ∧ effects_of (_resubInstruments self)
    = (if nonempty LTP then [Send ws (mode_request MODE_LTP LTP)] else [])
      ++ (if nonempty quote then [Send ws (mode_request MODE_QUOTE quote)] else [])
      ++ (if nonempty full then [Send ws (mode_request MODE_FULL full)] else []).
Proof.
  intros Hws Hknown Hb.
  destruct (resubInstruments_connected self ws LTP quote full Hws Hb) as [self' Hrun].
  pose proof (length_resub_batches _ _ _ _ Hb) as Hlen.
  rewrite resub_batches_filter in Hb. injection Hb as <- <- <-.
  split; [|split; [|split; [|split; [|split]]]].
  - intros k.
    pose proof (elem_of_batch (fun m => m = MODE_LTP) (_subbedInstruments self) k) as Hk.
    cbn beta in Hk. rewrite Hk.
    split; [intros (m & Hm & ->); exact Hm | eauto].
  - intros k.
    pose proof (elem_of_batch (fun m => m = MODE_QUOTE ∨ m = ""%string)
                  (_subbedInstruments self) k) as Hk.
    cbn beta in Hk. rewrite Hk.
    split; [intros (m & Hm & [-> | ->]); auto | intros [Hm | Hm]; eauto].
  - intros k.
    pose proof (elem_of_batch (fun m => m = MODE_FULL) (_subbedInstruments self) k) as Hk.
    cbn beta in Hk. rewrite Hk.
    split; [intros (m & Hm & ->); exact Hm | eauto].
  - rewrite Hlen, <- length_map_to_list. f_equal.
    apply filter_all. apply Forall_forall. intros [k m] Hin.
    apply elem_of_map_to_list in Hin. exact (Hknown k m Hin).
  - rewrite Hrun. reflexivity.
  - rewrite Hrun. reflexivity.
Qed.

Lemma resubInstruments_batches_witness :
  let self := connected_client scenario_ledger in
  (∀ k, k ∈ [100] ↔ _subbedInstruments self !! k = Some MODE_LTP)
  ∧ (∀ k, k ∈ [300; 200] ↔ _subbedInstruments self !! k = Some MODE_QUOTE
                          ∨ _subbedInstruments self !! k = Some ""%string)
  ∧ (∀ k, k ∈ [400] ↔ _subbedInstruments self !! k = Some MODE_FULL)
  ∧ (length [100] + length [300; 200] + length [400]
     = size (_subbedInstruments self))%nat
  ∧ result_of (_resubInstruments self) = Ok tt
  ∧ effects_of (_resubInstruments self)
    = [Send (socket 1) (mode_request MODE_LTP [100])]
      ++ [Send (socket 1) (mode_request MODE_QUOTE [300; 200])]
      ++ [Send (socket 1) (mode_request MODE_FULL [400])].
Proof.
  apply (resubInstruments_batches (connected_client scenario_ledger) (socket 1)
           [100] [300; 200] [400]).
  - reflexivity.
  - apply (bool_decide_unpack _). vm_compute. reflexivity.
  - vm_compute. reflexivity.
Defined.

(** A ledger whose only entry has a mode that is none of ltp, quote, full and
    unset: the three lists are empty, so their lengths do not add up to the
    number of entries. *)
Lemma resub_batches_drop_entries :
  ∃ LTP quote full : list Z,
    resub_batches {[ 1 := "foo"%string ]} = (LTP, quote, full)
    ∧ (length LTP + length quote + length full
       ≠ size ({[ 1%Z := "foo"%string ]} : gmap Z string))%nat.
Proof.
  exists [], [], []. split; [vm_compute; reflexivity|].
  rewrite map_size_singleton. discriminate.
Qed.

(** C10: [setMode] stores whatever string it is given, with no check that it
    is one of ltp, quote and full; and every entry of a ledger whose stored
    mode is none of ltp, quote, full and unset is in none of the three lists
    of the resubscription procedure, so that the lists hold strictly fewer
    tokens than the ledger has entries. *)
Theorem setMode_unvalidated_resub_omits (self : kiteWS) (ws : WebSocket) (mode : string)
    (toks : list Z) (tok : Z) (ledger : gmap Z string) (k : Z) (m : string)
    (LTP quote full : list Z) :
  _WS self = Some ws →
  tok ∈ toks →
  ledger !! k = Some m →
  ¬ known_mode m →
  resub_batches ledger = (LTP, quote, full) →
  (result_of (setMode mode toks self) = Ok tt
   ∧ _subbedInstruments (object_after (setMode mode toks self)) !! tok = Some mode)
  ∧ ((k ∉ LTP) ∧ (k ∉ quote) ∧ (k ∉ full)
     ∧ (length LTP + length quote + length full < size ledger)%nat).
Proof.
  intros Hws Htok Hk Hm Hb. split.
  - rewrite (setMode_connected self ws mode toks Hws).
    unfold result_of, object_after. simpl. split; [reflexivity|].
    rewrite lookup_foldl_insert, decide_True by exact Htok. reflexivity.
  - pose proof (length_resub_batches _ _ _ _ Hb) as Hlen.
    rewrite resub_batches_filter in Hb. injection Hb as <- <- <-.
    unfold known_mode in Hm.
    pose proof (elem_of_batch (fun m => m = MODE_LTP) ledger k) as H1.
    pose proof (elem_of_batch (fun m => m = MODE_QUOTE ∨ m = ""%string) ledger k) as H2.
    pose proof (elem_of_batch (fun m => m = MODE_FULL) ledger k) as H3.
    cbn beta in H1, H2, H3.
    split; [|split; [|split]].
    + rewrite H1. intros (m' & Hm' & ->). rewrite Hk in Hm'. injection Hm' as ->. tauto.
    + rewrite H2. intros (m' & Hm' & Hq). rewrite Hk in Hm'. injection Hm' as ->. tauto.
    + rewrite H3. intros (m' & Hm' & ->). rewrite Hk in Hm'. injection Hm' as ->. tauto.
    + rewrite Hlen, <- length_map_to_list.
      apply (length_filter_lt _ _ (k, m)); [apply elem_of_map_to_list, Hk|exact Hm].
Qed.

Lemma setMode_unvalidated_resub_omits_witness :
  let self := connected_client scenario_ledger in
  let ledger := _subbedInstruments (object_after (setMode "foo" [7] self)) in
  (result_of (setMode "foo" [7] self) = Ok tt
   ∧ _subbedInstruments (object_after (setMode "foo" [7] self)) !! 7 = Some "foo"%string)
  ∧ ((7 ∉ [100]) ∧ (7 ∉ [300; 200]) ∧ (7 ∉ [400])
     ∧ (length [100] + length [300; 200] + length [400] < size ledger)%nat).
Proof.
  apply (setMode_unvalidated_resub_omits (connected_client scenario_ledger) (socket 1)
           "foo" [7] 7 _ 7 "foo" [100] [300; 200] [400]).
  - reflexivity.
  - apply list_elem_of_here.
  - vm_compute. reflexivity.
  - apply (bool_decide_unpack _). vm_compute. reflexivity.
  - vm_compute. reflexivity.
Defined.

(** The reconnect scenario of the specification: the connection comes up on a
    client that holds the ledger of the scenario and has [onConnect] unset. *)
Example reconnect_scenario :
  effects_of
    (hub_onConnection (socket 2) 0 (set__subbedInstruments scenario_ledger new_client))
  = [ Send (socket 2) (mode_request MODE_LTP [100]);
      Send (socket 2) (mode_request MODE_QUOTE [300; 200]);
      Send (socket 2) (mode_request MODE_FULL [400]) ].
Proof. vm_compute. reflexivity. Qed.

(** ** Inbound messages *)

(** C7 (the code against the claim): a binary frame of one byte is never
    passed to the packet splitter, which would read past its end, and makes
    the client call no callback, whatever callbacks are set. When the
    [onTicks] callback is set the client stores the current time of the
    system clock as the time of the last heartbeat, as the claim and the
    documentation of [getLastBeatTime] say. When [onTicks] is not set the
    client is left as it was: the branch commented as the heartbeat sits
    inside the test [opCode == BINARY && onTicks], so the heartbeat is
    received and its time is not stored. *)
Theorem heartbeat_frame (be : bool) (default_tick : tick)
    (_parse : string → outcome json)
    (_getIfExists : list (string * json) → string → string → outcome string)
    (FMT : string → list string → string)
    (self : kiteWS) (b : byte) (now : Z) :
  let run := hub_onMessage be default_tick _parse _getIfExists FMT [b] BINARY now self in
  result_of run = Ok tt
  ∧ effects_of run = []
  ∧ _splitPackets be [b] = Undefined OutOfBounds
  ∧ (onTicks self = true → object_after run = set__lastBeatTime now self)
  ∧ (onTicks self = false →
     object_after run = self
     ∧ getLastBeatTime (object_after run) = getLastBeatTime self).
Proof.
  unfold hub_onMessage, mbind, M_bind, this. simpl.
  destruct (onTicks self); simpl; repeat split; try discriminate.
  all: destruct be; reflexivity.
Qed.

Lemma heartbeat_frame_witness :
  (let self := set_onTicks true (set__lastBeatTime 10 (connected_client ∅)) in
   let run :=
     hub_onMessage false zero_tick (fun _ => Ok JNull) (fun _ output _ => Ok output)
       (fun fmt _ => fmt) [x00] BINARY 25 self in
   result_of run = Ok tt
   ∧ effects_of run = []
   ∧ _splitPackets false [x00] = Undefined OutOfBounds
   ∧ onTicks self = true
   ∧ object_after run = set__lastBeatTime 25 self)
  ∧ (let self := set__lastBeatTime 10 (connected_client ∅) in
     let run :=
       hub_onMessage false zero_tick (fun _ => Ok JNull) (fun _ output _ => Ok output)
         (fun fmt _ => fmt) [x00] BINARY 25 self in
     onTicks self = false
     ∧ object_after run = self
     ∧ getLastBeatTime (object_after run) = 10).
Proof.
  split.
  - destruct (heartbeat_frame false zero_tick (fun _ => Ok JNull)
                (fun _ output _ => Ok output) (fun fmt _ => fmt)
                (set_onTicks true (set__lastBeatTime 10 (connected_client ∅))) x00 25)
      as (H1 & H2 & H3 & H4 & _).
    split; [exact H1|]. split; [exact H2|]. split; [exact H3|].
    split; [reflexivity|]. apply H4. reflexivity.
  - destruct (heartbeat_frame false zero_tick (fun _ => Ok JNull)
                (fun _ output _ => Ok output) (fun fmt _ => fmt)
                (set__lastBeatTime 10 (connected_client ∅)) x00 25)
      as (_ & _ & _ & _ & H5).
    destruct (H5 eq_refl) as [H6 H7].
    split; [reflexivity|]. split; [exact H6 | exact H7].
Defined.

(** A connected client on which [onTicks] is not set and whose last heartbeat
    is at time 10 receives a heartbeat at time 25: the stored time stays 10. *)
Lemma heartbeat_needs_onTicks :
  let self := set__lastBeatTime 10 (connected_client ∅) in
  let run :=
    hub_onMessage false zero_tick (fun _ => Ok JNull) (fun _ output _ => Ok output)
      (fun fmt _ => fmt) [x00] BINARY 25 self in
  onTicks self = false
  ∧ _lastBeatTime (object_after run) = 10
  ∧ _lastBeatTime (object_after run) ≠ 25.
Proof. repeat split. discriminate. Qed.

(** C9 (as the code has it): a text frame that parses as a JSON object with
    a string member [type] whose value is none of order, message and error is
    dropped without an error and without a call of any callback, unless that
    value is the empty string, which is the one value the router rejects,
    with the exception "Cannot recognize websocket message type". *)
Theorem text_unknown_type (_parse : string → outcome json)
    (_getIfExists : list (string * json) → string → string → outcome string)
    (FMT : string → list string → string)
    (self : kiteWS) (message : list byte) (members : list (string * json))
    (type : string) :
  (∀ ms output name s,
     FindMember ms name = Some (JString s) → _getIfExists ms output name = Ok s) →
  _parse (String.string_of_list_byte message) = Ok (JObject members) →
  FindMember members "type" = Some (JString type) →
  type ≠ "order"%string → type ≠ "message"%string → type ≠ "error"%string →
  (type ≠ ""%string →
   _processTextMessage _parse _getIfExists FMT message self = (Ok tt, self, []))
  ∧ (type = ""%string →
     _processTextMessage _parse _getIfExists FMT message self
     = (Throw (libException (FMT "Cannot recognize websocket message type {0}" [type])),
        self, [])).
Proof.
  intros Hget Hparse Htype Ho Hm He.
  unfold _processTextMessage, mbind, M_bind, this, lift.
  rewrite Hparse. rewrite (Hget _ _ _ _ Htype).
  split; intros Hempty.
  - rewrite decide_False by exact Hempty.
    rewrite !bool_decide_eq_false_2 by assumption. reflexivity.
  - rewrite decide_True by exact Hempty. reflexivity.
Qed.

Lemma text_unknown_type_witness :
  let _parse := fun _ : string => Ok (JObject [("type"%string, JString "foo")]) in
  let FMT := fun (fmt : string) (_ : list string) => fmt in
  _processTextMessage _parse getIfExists_string FMT [] new_client
  = (Ok tt, new_client, []).
Proof.
  intros _parse FMT.
  apply (text_unknown_type _parse getIfExists_string FMT new_client []
           [("type"%string, JString "foo")] "foo").
  - intros ms output name s Hs. unfold getIfExists_string. rewrite Hs. reflexivity.
  - reflexivity.
  - reflexivity.
  - discriminate.
  - discriminate.
  - discriminate.
  - discriminate.
Defined.

(** A text frame whose [type] is ["foo"]: the router returns normally, it
    throws nothing, [UnknownMessageType] or other. *)
Lemma unknown_type_not_rejected :
  let _parse := fun _ : string => Ok (JObject [("type"%string, JString "foo")]) in
  let FMT := fun (fmt : string) (_ : list string) => fmt in
  let run := _processTextMessage _parse getIfExists_string FMT [] new_client in
  FindMember [("type"%string, JString "foo")] "type" = Some (JString "foo")
  ∧ result_of run = Ok tt
  ∧ ¬ ∃ e : exn, result_of run = Throw e.
Proof.
  repeat split. intros [e He]. vm_compute in He. discriminate He.
Qed.

(** * Further properties *)

(** ** Byte reader *)

Lemma be_unsigned_range (bs : list byte) :
  0 ≤ be_unsigned bs < 256 ^ Z.of_nat (length bs).
Proof.
  induction bs as [|b bs IH] using rev_ind; [change (0 ≤ 0 < 1); lia|].
  rewrite be_unsigned_snoc, length_app, Nat2Z.inj_add, Z.pow_add_r by lia.
  pose proof (byte_to_Z_range b). change (256 ^ Z.of_nat (length [b])) with 256. nia.
Qed.

Lemma to_signed_range (T : int_type) (u : Z) :
  0 ≤ u < 2 ^ bits T → - 2 ^ (bits T - 1) ≤ to_signed (bits T) u < 2 ^ (bits T - 1).
Proof.
  unfold to_signed. destruct T; unfold bits; simpl sizeof.
  - change (2 ^ (8 * Z.of_nat 2 - 1)) with 32768. change (2 ^ (8 * Z.of_nat 2)) with 65536.
    destruct (Z.ltb_spec u 32768); lia.
  - change (2 ^ (8 * Z.of_nat 4 - 1)) with 2147483648.
    change (2 ^ (8 * Z.of_nat 4)) with 4294967296.
    destruct (Z.ltb_spec u 2147483648); lia.
Qed.

Lemma exact_range_length (T : int_type) (bytes : list byte) (start : Z) :
  0 ≤ start → start + Z.of_nat (sizeof T) ≤ Z.of_nat (length bytes) →
  length (take (sizeof T) (drop (Z.to_nat start) bytes)) = sizeof T.
Proof. intros. rewrite length_take, length_drop. lia. Qed.

(** Where the macro misreports the host, what is copied out of a range of
    exactly [sizeof T] bytes is its value least significant byte first. *)
Lemma native_value_swapped (host : bool) (T : int_type) (r : list byte) :
  length r = sizeof T →
  native_value host T (take (sizeof T) (if negb host then r else reverse r))
  = to_signed (bits T) (le_unsigned r).
Proof.
  intros Hlen. unfold native_value. destruct host; cbn [negb].
  - rewrite take_ge by (rewrite length_reverse; lia).
    rewrite <- le_unsigned_reverse, reverse_involutive. reflexivity.
  - rewrite take_ge by lia. reflexivity.
Qed.

Lemma build_getNum_exact (macro host : bool) (T : int_type) (bytes : list byte)
    (start : Z) :
  0 ≤ start → start + Z.of_nat (sizeof T) ≤ Z.of_nat (length bytes) →
  Build._getNum macro host T bytes start (start + Z.of_nat (sizeof T) - 1)
  = Ok (native_value host T
          (take (sizeof T)
             (if macro then take (sizeof T) (drop (Z.to_nat start) bytes)
              else reverse (take (sizeof T) (drop (Z.to_nat start) bytes))))).
Proof.
  intros H0 Hfit. unfold Build._getNum.
  rewrite vector_range_ok by lia. rewrite outcome_bind_Ok.
  replace (Z.to_nat (start + Z.of_nat (sizeof T) - 1 + 1 - start)) with (sizeof T) by lia.
  set (r := take (sizeof T) (drop (Z.to_nat start) bytes)).
  assert (length r = sizeof T) as Hr by (apply exact_range_length; assumption).
  unfold memcpy_value.
  replace (length (if macro then r else reverse r)) with (sizeof T)
    by (destruct macro; rewrite ?length_reverse; lia).
  rewrite Nat.ltb_irrefl. reflexivity.
Qed.

(** X1: the reader gives the value of the wire format on every host whose byte
    order the macro reports rightly: a read of exactly [sizeof(T)] bytes that
    lies inside the buffer then gives the same value on a big-endian and on a
    little-endian host, namely the two's complement reading of the bytes
    taken most significant first, which is in the range of [T]. The macro
    alone does not give that: in a build where it disagrees with the host the
    same read gives the bytes taken least significant first. *)
Theorem getNum_host_independent (T : int_type) (bytes : list byte) (start : Z) :
  0 ≤ start → start + Z.of_nat (sizeof T) ≤ Z.of_nat (length bytes) →
  let end_ := start + Z.of_nat (sizeof T) - 1 in
  let field := take (sizeof T) (drop (Z.to_nat start) bytes) in
  let v := to_signed (bits T) (be_unsigned field) in
  _getNum true T bytes start end_ = Ok v
  ∧ _getNum false T bytes start end_ = Ok v
  ∧ - 2 ^ (bits T - 1) ≤ v < 2 ^ (bits T - 1)
  ∧ (∀ host, Build._getNum host host T bytes start end_ = Ok v)
  ∧ (∀ host, Build._getNum (negb host) host T bytes start end_
             = Ok (to_signed (bits T) (le_unsigned field)))
  ∧ (∀ be start' end', _getNum be T bytes start' end'
                       = Build._getNum be be T bytes start' end').
Proof.
  intros H0 Hfit end_ field v.
  assert (length field = sizeof T) as Hlen by (apply exact_range_length; assumption).
  split; [|split; [|split; [|split; [|split]]]].
  - apply getNum_exact; assumption.
  - apply getNum_exact; assumption.
  - apply to_signed_range.
    pose proof (be_unsigned_range field) as Hr. rewrite Hlen in Hr.
    unfold bits. replace (2 ^ (8 * Z.of_nat (sizeof T))) with (256 ^ Z.of_nat (sizeof T));
      [exact Hr|].
    change 256 with (2 ^ 8). rewrite <- Z.pow_mul_r by lia. reflexivity.
  - intros host. unfold end_. rewrite build_getNum_exact by assumption.
    f_equal. apply native_value_exact, Hlen.
  - intros host. unfold end_. rewrite build_getNum_exact by assumption.
    f_equal. apply native_value_swapped, Hlen.
  - reflexivity.
Qed.

Lemma getNum_host_independent_witness :
  _getNum true int16_t [x12; xff; xfe; x34] 1 2 = Ok (-2)
  ∧ _getNum false int16_t [x12; xff; xfe; x34] 1 2 = Ok (-2)
  ∧ - 2 ^ (bits int16_t - 1) ≤ -2 < 2 ^ (bits int16_t - 1)
  ∧ (∀ host, Build._getNum host host int16_t [x12; xff; xfe; x34] 1 2 = Ok (-2))
  ∧ (∀ host, Build._getNum (negb host) host int16_t [x12; xff; xfe; x34] 1 2
             = Ok (-257))
  ∧ (∀ be start' end', _getNum be int16_t [x12; xff; xfe; x34] start' end'
                       = Build._getNum be be int16_t [x12; xff; xfe; x34] start' end').
Proof.
  apply (getNum_host_independent int16_t [x12; xff; xfe; x34] 1);
    vm_compute; discriminate.
Defined.

(** X2: the behaviour of [_getNum] is defined exactly when the range it is
    given starts at a valid offset, ends inside the buffer and holds at least
    [sizeof(T)] bytes. Outside that, what goes wrong first is known: a range
    that leaves the buffer is an out-of-bounds read, a range inside the
    buffer that ends before it starts is no range for the constructor of the
    vector, and a range inside the buffer that is shorter than [T] makes the
    copy read past the bytes that were taken. *)
Theorem getNum_defined_iff (be : bool) (T : int_type) (bytes : list byte) (start end_ : Z) :
  ((∃ v, _getNum be T bytes start end_ = Ok v)
   ↔ 0 ≤ start ∧ end_ + 1 ≤ Z.of_nat (length bytes)
     ∧ Z.of_nat (sizeof T) ≤ end_ + 1 - start)
  ∧ (start < 0 ∨ Z.of_nat (length bytes) < end_ + 1 →
     _getNum be T bytes start end_ = Undefined OutOfBounds)
  ∧ (0 ≤ start ∧ end_ + 1 ≤ Z.of_nat (length bytes) ∧ end_ + 1 < start →
     _getNum be T bytes start end_ = Undefined InvalidRange)
  ∧ (0 ≤ start ∧ end_ + 1 ≤ Z.of_nat (length bytes)
     ∧ 0 ≤ end_ + 1 - start < Z.of_nat (sizeof T) →
     _getNum be T bytes start end_ = Undefined OutOfBounds).
Proof.
  split; [split|split; [|split]].
  - intros [v Hv]. exact (getNum_inv _ _ _ _ _ _ Hv).
  - intros (H0 & Hend & Hsize). unfold _getNum.
    rewrite vector_range_ok by lia. rewrite outcome_bind_Ok. unfold memcpy_value.
    set (r := take (Z.to_nat (end_ + 1 - start)) (drop (Z.to_nat start) bytes)).
    assert (sizeof T ≤ length r)%nat as Hr
      by (unfold r; rewrite length_take, length_drop; lia).
    replace (length (if be then r else reverse r)) with (length r)
      by (destruct be; rewrite ?length_reverse; reflexivity).
    destruct (Nat.ltb_spec (length r) (sizeof T)); [lia|]. eauto.
  - intros Hout. unfold _getNum, vector_range.
    destruct (Z.ltb_spec start 0); [reflexivity|].
    destruct (Z.ltb_spec (Z.of_nat (length bytes)) (end_ + 1)); [reflexivity|lia].
  - intros (H0 & Hend & Hrev). unfold _getNum, vector_range.
    destruct (Z.ltb_spec start 0); [lia|].
    destruct (Z.ltb_spec (Z.of_nat (length bytes)) (end_ + 1)); [lia|]. cbn [orb].
    destruct (Z.ltb_spec (end_ + 1) start); [reflexivity|lia].
  - intros (H0 & Hend & Hshort). unfold _getNum.
    rewrite vector_range_ok by lia. rewrite outcome_bind_Ok. unfold memcpy_value.
    set (r := take (Z.to_nat (end_ + 1 - start)) (drop (Z.to_nat start) bytes)).
    assert (length r < sizeof T)%nat as Hr
      by (unfold r; rewrite length_take, length_drop; lia).
    replace (length (if be then r else reverse r)) with (length r)
      by (destruct be; rewrite ?length_reverse; reflexivity).
    destruct (Nat.ltb_spec (length r) (sizeof T)); [reflexivity|lia].
Qed.

(** ** Packet splitter *)

Lemma byte_of_to_Z (b : byte) : byte_of_Z (byte_to_Z b) = b.
Proof.
  unfold byte_of_Z, byte_to_Z. pose proof (byte_to_Z_range b) as Hr.
  unfold byte_to_Z in Hr. rewrite Z.mod_small by lia.
  rewrite N2Z.id, Byte.of_to_N. reflexivity.
Qed.

Lemma be_unsigned_pair (hi lo : byte) :
  be_unsigned [hi; lo] = 256 * byte_to_Z hi + byte_to_Z lo.
Proof. unfold be_unsigned. simpl. lia. Qed.

(** A non-negative 16-bit field is the encoding of its value. *)
Lemma be16_of_field (hi lo : byte) :
  0 ≤ to_signed (bits int16_t) (be_unsigned [hi; lo]) →
  be16 (to_signed (bits int16_t) (be_unsigned [hi; lo])) = [hi; lo].
Proof.
  rewrite be_unsigned_pair.
  pose proof (byte_to_Z_range hi) as Hhi. pose proof (byte_to_Z_range lo) as Hlo.
  unfold to_signed, bits. simpl sizeof.
  change (2 ^ (8 * Z.of_nat 2 - 1)) with 32768. change (2 ^ (8 * Z.of_nat 2)) with 65536.
  destruct (Z.ltb_spec (256 * byte_to_Z hi + byte_to_Z lo) 32768); [|lia].
  intros _. unfold be16.
  assert ((256 * byte_to_Z hi + byte_to_Z lo) / 256 = byte_to_Z hi) as ->
    by (symmetry; apply (Z.div_unique _ 256 _ (byte_to_Z lo)); lia).
  assert (byte_of_Z (256 * byte_to_Z hi + byte_to_Z lo) = lo) as ->.
  { unfold byte_of_Z.
    assert ((256 * byte_to_Z hi + byte_to_Z lo) mod 256 = byte_to_Z lo) as ->
      by (symmetry; apply (Z.mod_unique _ 256 (byte_to_Z hi)); lia).
    rewrite <- (byte_of_to_Z lo) at 2. unfold byte_of_Z.
    rewrite (Z.mod_small (byte_to_Z lo)) by lia. reflexivity. }
  rewrite byte_of_to_Z. reflexivity.
Qed.

(** X3: the splitter stops after the packets the header announces: bytes that
    follow the last of them are not looked at, and make no difference. *)
Theorem splitPackets_ignores_trailing (be : bool) (ps : list (list byte))
    (rest : list byte) :
  Z.of_nat (length ps) ≤ INT16_MAX → packets_fit ps →
  _splitPackets be (encode_frame ps ++ rest) = _splitPackets be (encode_frame ps)
  ∧ _splitPackets be (encode_frame ps ++ rest) = Ok ps.
Proof.
  intros Hn Hfit.
  pose proof (splitPackets_encode_frame_app be ps rest Hn Hfit) as H1.
  pose proof (splitPackets_encode_frame_app be ps [] Hn Hfit) as H2.
  rewrite app_nil_r in H2. rewrite H1, H2. split; reflexivity.
Qed.

Lemma splitPackets_ignores_trailing_witness :
  _splitPackets false (encode_frame [[x0a]] ++ [xff; xff; xff])
  = _splitPackets false (encode_frame [[x0a]])
  ∧ _splitPackets false (encode_frame [[x0a]] ++ [xff; xff; xff]) = Ok [[x0a]].
Proof.
  apply (splitPackets_ignores_trailing false [[x0a]] [xff; xff; xff]).
  - vm_compute. discriminate.
  - repeat (constructor; [vm_compute; discriminate|]). constructor.
Defined.

(** X4: the packet count is a signed 16-bit number: when the first byte of the
    frame has its top bit set the count is negative, the loop does not run,
    and the splitter returns no packet and no error, whatever the frame holds
    after the count. *)
Theorem splitPackets_negative_count (be : bool) (hi lo : byte) (rest : list byte) :
  128 ≤ byte_to_Z hi →
  _splitPackets be (hi :: lo :: rest) = Ok [].
Proof.
  intros Hhi. unfold _splitPackets.
  pose proof (getNum_exact be int16_t (hi :: lo :: rest) 0 ltac:(lia)) as Hex.
  simpl sizeof in Hex. change (0 + Z.of_nat 2 - 1) with 1 in Hex.
  rewrite Hex by (rewrite !length_cons; lia). rewrite outcome_bind_Ok.
  change (take 2 (drop (Z.to_nat 0) (hi :: lo :: rest))) with [hi; lo].
  rewrite be_unsigned_pair.
  pose proof (byte_to_Z_range hi). pose proof (byte_to_Z_range lo).
  unfold to_signed, bits. simpl sizeof.
  change (2 ^ (8 * Z.of_nat 2 - 1)) with 32768. change (2 ^ (8 * Z.of_nat 2)) with 65536.
  destruct (Z.ltb_spec (256 * byte_to_Z hi + byte_to_Z lo) 32768); [lia|].
  replace (Z.to_nat (256 * byte_to_Z hi + byte_to_Z lo - 65536)) with 0%nat by lia.
  reflexivity.
Qed.

Lemma splitPackets_negative_count_witness :
  _splitPackets false (xff :: xff :: [x00; x08; x01]) = Ok [].
Proof.
  apply (splitPackets_negative_count false xff xff [x00; x08; x01]).
  vm_compute. discriminate.
Defined.

Lemma uint_negative (z : Z) : - 4294967296 ≤ z < 0 → uint z = z + 4294967296.
Proof.
  intros Hz. unfold uint. change (2 ^ 32) with 4294967296.
  rewrite <- (Z_mod_plus_full z 1 4294967296). apply Z.mod_small. lia.
Qed.

Lemma field16_range (bs : list byte) :
  length bs = 2%nat → -32768 ≤ to_signed (bits int16_t) (be_unsigned bs) < 32768.
Proof.
  intros Hlen. pose proof (be_unsigned_range bs) as Hr. rewrite Hlen in Hr.
  change (256 ^ Z.of_nat 2) with 65536 in Hr.
  pose proof (to_signed_range int16_t (be_unsigned bs)) as Hs.
  unfold bits in Hs. simpl sizeof in Hs.
  change (2 ^ (8 * Z.of_nat 2 - 1)) with 32768 in Hs.
  change (2 ^ (8 * Z.of_nat 2)) with 65536 in Hs. unfold bits. simpl sizeof. lia.
Qed.

(** A turn of the loop that returns has consumed one encoded packet that
    stands in the frame at the index the turn started from. *)
Lemma split_step_inv (be : bool) (bytes : list byte) (s s' : Z)
    (acc acc' : list (list byte)) :
  Z.of_nat (length bytes) < 2147483648 →
  0 ≤ s ≤ Z.of_nat (length bytes) →
  split_step be bytes (s, acc) = Ok (s', acc') →
  ∃ p, acc' = acc ++ [p]
       ∧ s' = s + Z.of_nat (length (encode_packet p))
       ∧ s' ≤ Z.of_nat (length bytes)
       ∧ take (length (encode_packet p)) (drop (Z.to_nat s) bytes) = encode_packet p
       ∧ Z.of_nat (length p) ≤ INT16_MAX.
Proof.
  intros Hsize Hs H. unfold split_step in H.
  rewrite (uint_small (s + 1)) in H by lia.
  bind_inv H. rename v into len, E into Elen.
  pose proof (getNum_inv _ _ _ _ _ _ Elen) as (_ & Hend & _).
  pose proof (getNum_exact be int16_t bytes s ltac:(lia) ltac:(simpl sizeof; lia)) as Hex.
  simpl sizeof in Hex. replace (s + Z.of_nat 2 - 1) with (s + 1) in Hex by lia.
  rewrite Hex in Elen. injection Elen as Elen.
  set (field := take 2 (drop (Z.to_nat s) bytes)) in *.
  assert (length field = 2%nat) as Hfield
    by (unfold field; rewrite length_take, length_drop; lia).
  pose proof (field16_range field Hfield) as Hrange. rewrite Elen in Hrange.
  bind_inv H. rename v into p, E into Ep. injection H as <- <-.
  apply vector_range_inv in Ep as (Hord & Hlast & Hp).
  assert (0 ≤ len) as Hpos.
  { destruct (Z_lt_le_dec len 0) as [Hneg|]; [exfalso|assumption].
    destruct (Z_lt_le_dec (s + 1 + len + 1) 0).
    - rewrite uint_negative in Hlast by lia. lia.
    - rewrite uint_small in Hord by lia. lia. }
  rewrite uint_small in Hp, Hlast |- * by lia.
  replace (Z.to_nat (s + 1 + len + 1 - (s + 1 + 1))) with (Z.to_nat len) in Hp by lia.
  assert (length p = Z.to_nat len) as Hplen
    by (rewrite Hp, length_take, length_drop; lia).
  exists p. rewrite length_encode_packet. repeat split; try lia.
  - unfold encode_packet.
    destruct field as [|hi [|lo [|? ?]]] eqn:Efield; try discriminate Hfield.
    replace (Z.of_nat (length p)) with len by lia.
    rewrite <- Elen, be16_of_field by (rewrite Elen; exact Hpos).
    rewrite <- Efield. unfold field.
    rewrite Hplen, Hp. replace (Z.to_nat (s + 1 + 1)) with (Z.to_nat s + 2)%nat by lia.
    rewrite <- drop_drop. symmetry. apply take_take_drop.
  - unfold INT16_MAX. lia.
Qed.

Lemma split_loop_inv (be : bool) (bytes : list byte) (n : nat) :
  ∀ (s s' : Z) (acc acc' : list (list byte)),
  Z.of_nat (length bytes) < 2147483648 →
  0 ≤ s ≤ Z.of_nat (length bytes) →
  split_loop be n bytes (s, acc) = Ok (s', acc') →
  ∃ ps, acc' = acc ++ ps
        ∧ length ps = n
        ∧ packets_fit ps
        ∧ s' = s + Z.of_nat (length (concat (encode_packet <$> ps)))
        ∧ s' ≤ Z.of_nat (length bytes)
        ∧ take (length (concat (encode_packet <$> ps))) (drop (Z.to_nat s) bytes)
          = concat (encode_packet <$> ps).
Proof.
  induction n as [|n IH]; intros s s' acc acc' Hsize Hs H.
  - injection H as <- <-. exists []. rewrite app_nil_r. simpl.
    repeat split; [constructor|lia|lia].
  - cbn [split_loop] in H. bind_inv H. destruct v as [s1 acc1].
    apply split_step_inv in E as (p & -> & -> & Hle & Htake & Hp); [|assumption..].
    apply IH in H as (ps & -> & <- & Hfit & -> & Hle' & Htake'); [|assumption|lia].
    exists (p :: ps). rewrite <- app_assoc, fmap_cons, concat_cons, length_app.
    repeat split; try lia.
    + constructor; assumption.
    + rewrite <- Htake at 2. rewrite <- Htake' at 2.
      replace (Z.to_nat (s + Z.of_nat (length (encode_packet p))))
        with (Z.to_nat s + length (encode_packet p))%nat by lia.
      rewrite <- drop_drop. symmetry. apply take_take_drop.
Qed.

(** X5: a run of the splitter that stays inside the frame returns what was in
    the frame. If every read of the run is within the frame and the run
    returns packets, then after the two bytes of the count the frame holds
    the returned packets, each behind its own length, one after the other and
    in the order returned; every returned packet is shorter than 32768 bytes;
    and when packets are returned the count is their number. Of a run that
    reads outside the frame nothing is said. *)
Theorem splitPackets_sound (be : bool) (F : list byte) (ps : list (list byte)) :
  Z.of_nat (length F) < 2147483648 →
  _splitPackets be F = Ok ps →
  packets_fit ps
  ∧ (∃ rest, F = take 2 F ++ concat (encode_packet <$> ps) ++ rest)
  ∧ (ps ≠ [] → ∃ rest, F = encode_frame ps ++ rest).
Proof.
  intros Hsize H. unfold _splitPackets in H.
  bind_inv H. rename v into n, E into En.
  pose proof (getNum_inv _ _ _ _ _ _ En) as (_ & Hend & _).
  bind_inv H. destruct v as [s' acc']. injection H as <-. cbn [snd].
  apply split_loop_inv in E as (ps & -> & Hn & Hfit & -> & Hle & Htake);
    [|assumption|lia].
  rewrite app_nil_l.
  assert (F = take 2 F ++ concat (encode_packet <$> ps)
                ++ drop (length (concat (encode_packet <$> ps))) (drop 2 F)) as HF.
  { change (Z.to_nat 2) with 2%nat in Htake.
    rewrite <- Htake at 1. rewrite take_drop, take_drop. reflexivity. }
  split; [exact Hfit|]. split; [eauto|].
  intros Hne. eexists. unfold encode_frame. rewrite <- app_assoc.
  rewrite HF at 1. f_equal.
  pose proof (getNum_exact be int16_t F 0 ltac:(lia) ltac:(simpl sizeof; lia)) as Hex.
  simpl sizeof in Hex. change (0 + Z.of_nat 2 - 1) with 1 in Hex.
  rewrite Hex in En. injection En as En. change (Z.to_nat 0) with 0%nat in En.
  rewrite drop_0 in En.
  assert (n = Z.of_nat (length ps)) as Hcount.
  { destruct ps; [congruence|]. rewrite length_cons in *. lia. }
  assert (length (take 2 F) = 2%nat) as Hlen2 by (rewrite length_take; lia).
  destruct (take 2 F) as [|hi [|lo [|? ?]]]; try discriminate Hlen2.
  rewrite <- Hcount, <- En. symmetry. apply be16_of_field. rewrite En. lia.
Qed.

Lemma splitPackets_sound_witness :
  packets_fit [[xab; xcd]]
  ∧ (∃ rest, [x00; x01; x00; x02; xab; xcd; xee]
             = take 2 [x00; x01; x00; x02; xab; xcd; xee]
               ++ concat (encode_packet <$> [[xab; xcd]]) ++ rest)
  ∧ ([[xab; xcd]] ≠ [] →
     ∃ rest, [x00; x01; x00; x02; xab; xcd; xee] = encode_frame [[xab; xcd]] ++ rest).
Proof.
  apply (splitPackets_sound false [x00; x01; x00; x02; xab; xcd; xee] [[xab; xcd]]).
  - vm_compute. reflexivity.
  - vm_compute. reflexivity.
Defined.

(** ** Tick decoder *)

Lemma getNum32_at (be : bool) (packet : list byte) (a b : Z) :
  0 ≤ a → b = a + 3 → a + 4 ≤ Z.of_nat (length packet) →
  _getNum be int32_t packet a b = Ok (be32_at packet (Z.to_nat a)).
Proof.
  intros Ha -> Hfit.
  pose proof (getNum_exact be int32_t packet a Ha ltac:(simpl sizeof; lia)) as Hex.
  simpl sizeof in Hex. replace (a + Z.of_nat 4 - 1) with (a + 3) in Hex by lia.
  exact Hex.
Qed.

Lemma getNum16_at (be : bool) (packet : list byte) (a b : Z) :
  0 ≤ a → b = a + 1 → a + 2 ≤ Z.of_nat (length packet) →
  _getNum be int16_t packet a b = Ok (be16_at packet (Z.to_nat a)).
Proof.
  intros Ha -> Hfit.
  pose proof (getNum_exact be int16_t packet a Ha ltac:(simpl sizeof; lia)) as Hex.
  simpl sizeof in Hex. replace (a + Z.of_nat 2 - 1) with (a + 1) in Hex by lia.
  exact Hex.
Qed.

(** Evaluation of the closed tests and indices the decoder computes. *)
Ltac eval_closed :=
  repeat match goal with
    | |- context [uint ?z] =>
        let r := eval vm_compute in (uint z) in change (uint z) with r
    | |- context [Z.to_nat ?z] =>
        let r := eval vm_compute in (Z.to_nat z) in change (Z.to_nat z) with r
    | |- context [Z.of_nat ?n =? ?k] =>
        let r := eval vm_compute in (Z.of_nat n =? k) in
        change (Z.of_nat n =? k) with r
    | |- context [5 <=? ?i] =>
        let r := eval vm_compute in (5 <=? i) in change (5 <=? i) with r
    end.

(** One read of the decoder that lies inside the packet. *)
Ltac read_field :=
  unfold getPrice; eval_closed; cbn beta iota zeta;
  first
    [ rewrite getNum32_at by lia
    | rewrite getNum16_at by lia ];
  rewrite ?outcome_bind_Ok; eval_closed; cbn beta iota zeta.

(** The first steps of the decoder on a packet of at least four bytes. *)
Ltac decode_header packet Hlen :=
  unfold parse_packet;
  rewrite (getNum32_at _ packet 0 3) by lia; rewrite outcome_bind_Ok;
  rewrite segment_cds, segment_indices, !outcome_bind_Ok;
  rewrite ?Hlen; eval_closed; cbn [orb]; cbn beta iota zeta;
  fold (segment_of packet); fold (divisor_of packet); fold (tradable_of packet).

Lemma parse_packet_8 (be : bool) (d : tick) (packet : list byte) :
  length packet = 8%nat →
  parse_packet be d packet = Ok (ltp_tick d packet).
Proof.
  intros Hlen. decode_header packet Hlen. repeat read_field. reflexivity.
Qed.

Lemma parse_packet_28 (be : bool) (d : tick) (packet : list byte) :
  length packet = 28%nat →
  parse_packet be d packet = Ok (indices_quote_tick d packet).
Proof.
  intros Hlen. decode_header packet Hlen. repeat read_field. reflexivity.
Qed.

Lemma parse_packet_44 (be : bool) (d : tick) (packet : list byte) :
  length packet = 44%nat →
  parse_packet be d packet = Ok (quote_tick d packet).
Proof.
  intros Hlen. decode_header packet Hlen. repeat read_field. reflexivity.
Qed.

Lemma marketDepth_set (m : depth) (t : tick) : marketDepth (set_marketDepth m t) = m.
Proof. reflexivity. Qed.

Lemma set_marketDepth_set (m m' : depth) (t : tick) :
  set_marketDepth m (set_marketDepth m' t) = set_marketDepth m t.
Proof. reflexivity. Qed.

(** The depth loop on a packet of 184 bytes: five entries go to the buy side
    and five to the sell side, and nothing else of the tick changes. *)
Lemma depth_loop_184 (be : bool) (packet : list byte) (divisor : float) (Tick : tick) :
  length packet = 184%nat →
  depth_loop be packet divisor (seqZ 0 10) (64, Tick)
  = Ok (184,
        set_marketDepth
          {| buy := buy (marketDepth Tick)
                    ++ ((fun i : nat =>
                           {| quantity := be32_at packet (64 + 12 * i);
                              price := PrimFloat.div
                                         (double_of_int (be32_at packet (64 + 12 * i + 4)))
                                         divisor;
                              orders := be16_at packet (64 + 12 * i + 8) |})
                          <$> [0; 1; 2; 3; 4]%nat);
             sell := sell (marketDepth Tick)
                     ++ ((fun i : nat =>
                            {| quantity := be32_at packet (64 + 12 * i);
                               price := PrimFloat.div
                                          (double_of_int (be32_at packet (64 + 12 * i + 4)))
                                          divisor;
                               orders := be16_at packet (64 + 12 * i + 8) |})
                           <$> [5; 6; 7; 8; 9]%nat) |} Tick).
Proof.
  intros Hlen. change (seqZ 0 10) with [0; 1; 2; 3; 4; 5; 6; 7; 8; 9].
  cbn [depth_loop]. unfold depth_step.
  repeat (read_field; rewrite ?marketDepth_set, ?set_marketDepth_set).
  do 3 f_equal. destruct (marketDepth Tick) as [b s].
  unfold push_sell, push_buy. cbn [buy sell].
  rewrite <- !app_assoc. reflexivity.
Qed.

Lemma parse_packet_184 (be : bool) (d : tick) (packet : list byte) :
  length packet = 184%nat →
  parse_packet be d packet = Ok (full_tick d packet).
Proof.
  intros Hlen. decode_header packet Hlen. repeat read_field.
  rewrite depth_loop_184 by exact Hlen. rewrite outcome_bind_Ok.
  destruct d as [? ? ? ? ? ? ? ? ? ? ? ? ? ? ? ? [b s]]. reflexivity.
Qed.

Lemma parse_packet_other (be : bool) (d : tick) (packet : list byte) :
  (4 ≤ length packet)%nat →
  length packet ≠ 8%nat → length packet ≠ 28%nat → length packet ≠ 32%nat →
  length packet ≠ 44%nat → length packet ≠ 184%nat →
  parse_packet be d packet = Ok (bare_tick d packet).
Proof.
  intros H4 H8 H28 H32 H44 H184. unfold parse_packet.
  rewrite (getNum32_at _ packet 0 3) by lia. rewrite outcome_bind_Ok.
  rewrite segment_cds, segment_indices, !outcome_bind_Ok. cbn beta iota zeta.
  change (Z.to_nat 0) with 0%nat.
  fold (segment_of packet). fold (tradable_of packet).
  repeat match goal with
    | |- context [Z.of_nat (length packet) =? ?k] =>
        destruct (Z.eqb_spec (Z.of_nat (length packet)) k); [lia|]
    end.
  reflexivity.
Qed.

Lemma parse_packet_short (be : bool) (d : tick) (packet : list byte) :
  (length packet < 4)%nat → parse_packet be d packet = Undefined OutOfBounds.
Proof.
  intros Hlen. unfold parse_packet.
  rewrite (getNum_past_end be int32_t packet 0 3) by lia. reflexivity.
Qed.

Lemma parse_packet_32 (be : bool) (d : tick) (packet : list byte) :
  length packet = 32%nat → parse_packet be d packet = Undefined OutOfBounds.
Proof.
  intros Hlen. decode_header packet Hlen.
  rewrite (getNum_past_end be int32_t packet 28 33) by lia.
  repeat read_field. reflexivity.
Qed.

(** The decoder never throws: a packet gives a tick, or a read out of
    bounds. *)
Lemma parse_packet_result (be : bool) (d : tick) (packet : list byte) :
  (((length packet < 4)%nat ∨ length packet = 32%nat)
   ∧ parse_packet be d packet = Undefined OutOfBounds)
  ∨ ((4 ≤ length packet)%nat ∧ length packet ≠ 32%nat
     ∧ ∃ t, parse_packet be d packet = Ok t).
Proof.
  destruct (decide (length packet < 4)%nat) as [Hshort|Hlong].
  { left. split; [auto|]. apply parse_packet_short, Hshort. }
  destruct (decide (length packet = 32%nat)) as [H32|H32].
  { left. split; [auto|]. apply parse_packet_32, H32. }
  right. split; [lia|]. split; [exact H32|].
  destruct (decide (length packet = 8%nat)) as [H8|H8];
    [rewrite parse_packet_8 by exact H8; eauto|].
  destruct (decide (length packet = 28%nat)) as [H28|H28];
    [rewrite parse_packet_28 by exact H28; eauto|].
  destruct (decide (length packet = 44%nat)) as [H44|H44];
    [rewrite parse_packet_44 by exact H44; eauto|].
  destruct (decide (length packet = 184%nat)) as [H184|H184];
    [rewrite parse_packet_184 by exact H184; eauto|].
  rewrite parse_packet_other by (assumption || lia). eauto.
Qed.

(** X6: the decoder returns a tick for every packet of at least four bytes whose
    length is not 32, whatever the length, and the mode of the tick follows
    from the length alone: ltp for 8 bytes, quote for 28 and for 44, full for
    184, and the mode of the default tick for every other length; a packet of
    fewer than four bytes makes the read of the token leave the packet. *)
Theorem parse_packet_mode_by_length (be : bool) (d : tick) (packet : list byte) :
  ((4 ≤ length packet)%nat → length packet ≠ 32%nat →
   ∃ t, parse_packet be d packet = Ok t
        ∧ mode t = (if decide (length packet = 8%nat) then MODE_LTP
                    else if decide (length packet = 28%nat) then MODE_QUOTE
                    else if decide (length packet = 44%nat) then MODE_QUOTE
                    else if decide (length packet = 184%nat) then MODE_FULL
                    else mode d))
  ∧ ((length packet < 4)%nat → parse_packet be d packet = Undefined OutOfBounds).
Proof.
  split; [|apply parse_packet_short].
  intros H4 H32.
  destruct (decide (length packet = 8%nat)) as [H8|H8];
    [rewrite parse_packet_8 by exact H8; eauto|].
  destruct (decide (length packet = 28%nat)) as [H28|H28];
    [rewrite parse_packet_28 by exact H28; eauto|].
  destruct (decide (length packet = 44%nat)) as [H44|H44];
    [rewrite parse_packet_44 by exact H44; eauto|].
  destruct (decide (length packet = 184%nat)) as [H184|H184];
    [rewrite parse_packet_184 by exact H184; eauto|].
  rewrite parse_packet_other by assumption. eauto.
Qed.

Lemma parse_packet_mode_by_length_witness :
  (∃ t, parse_packet false zero_tick (replicate 44 x00) = Ok t ∧ mode t = MODE_QUOTE)
  ∧ parse_packet false zero_tick [x00; x00; x01] = Undefined OutOfBounds.
Proof.
  destruct (parse_packet_mode_by_length false zero_tick (replicate 44 x00)) as [H _].
  destruct (parse_packet_mode_by_length false zero_tick [x00; x00; x01]) as [_ H'].
  split.
  - apply H; [vm_compute; lia | vm_compute; discriminate].
  - apply H'. vm_compute. lia.
Defined.

(** X7: a packet whose length is none of 8, 28, 32, 44 and 184 is not rejected:
    the decoder returns the default tick with the token and the tradability
    filled in, and every other member, the mode included, as the default has
    it. *)
Theorem parse_packet_unknown_length (be : bool) (d : tick) (packet : list byte) :
  (4 ≤ length packet)%nat →
  length packet ≠ 8%nat → length packet ≠ 28%nat → length packet ≠ 32%nat →
  length packet ≠ 44%nat → length packet ≠ 184%nat →
  parse_packet be d packet
  = Ok {| mode := mode d; instrumentToken := be32_at packet 0;
          isTradable := tradable_of packet; lastPrice := lastPrice d;
          OHLC := OHLC d; netChange := netChange d;
          lastTradedQuantity := lastTradedQuantity d;
          averageTradePrice := averageTradePrice d; volumeTraded := volumeTraded d;
          totalBuyQuantity := totalBuyQuantity d;
          totalSellQuantity := totalSellQuantity d; lastTradeTime := lastTradeTime d;
          OI := OI d; OIDayHigh := OIDayHigh d; OIDayLow := OIDayLow d;
          timestamp := timestamp d; marketDepth := marketDepth d |}.
Proof.
  intros H4 H8 H28 H32 H44 H184.
  rewrite parse_packet_other by assumption. reflexivity.
Qed.

Lemma parse_packet_unknown_length_witness :
  parse_packet false zero_tick [x00; x00; x01; x09; xff]
  = Ok (set_instrumentToken 265 zero_tick).
Proof.
  rewrite (parse_packet_unknown_length false zero_tick [x00; x00; x01; x09; xff]);
    [vm_compute; reflexivity | vm_compute; lia | discriminate..].
Defined.

(** The 8-byte packet: the last price is the int32 in bytes [4..8) over the
    divisor of the segment, the mode is ltp, and no other member is set. *)
Lemma ltp_packet_layout (be : bool) (d : tick) (packet : list byte) :
  length packet = 8%nat → parse_packet be d packet = Ok (ltp_tick d packet).
Proof. apply parse_packet_8. Qed.

Lemma ltp_packet_layout_witness :
  parse_packet false zero_tick ltp_packet = Ok (ltp_tick zero_tick ltp_packet)
  ∧ lastPrice (ltp_tick zero_tick ltp_packet) = 100%float.
Proof.
  split; [apply (ltp_packet_layout false zero_tick ltp_packet); reflexivity|].
  vm_compute. reflexivity.
Defined.

(** X8: the 28-byte packet of an index: after the last price in bytes [4..8) come
    high, low, open and close, in that order, in bytes [8..24), and the net
    change is read from bytes [24..28), all over the divisor of the segment;
    the mode is quote and the remaining members are the default's. *)
Theorem indices_quote_packet_layout (be : bool) (d : tick) (packet : list byte) :
  length packet = 28%nat → parse_packet be d packet = Ok (indices_quote_tick d packet).
Proof. apply parse_packet_28. Qed.

Lemma indices_quote_packet_layout_witness :
  parse_packet false zero_tick (replicate 28 x09)
  = Ok (indices_quote_tick zero_tick (replicate 28 x09)).
Proof.
  apply (indices_quote_packet_layout false zero_tick (replicate 28 x09)). reflexivity.
Defined.

(** X9: the 44-byte packet: last price, last traded quantity, average trade
    price, volume, total buy and total sell quantity, then open, high, low
    and close, each a big-endian int32 at its offset, prices over the divisor
    of the segment; the net change is not read but computed as
    (last - close) * 100 / close; the mode is quote. *)
Theorem quote_packet_layout (be : bool) (d : tick) (packet : list byte) :
  length packet = 44%nat → parse_packet be d packet = Ok (quote_tick d packet).
Proof. apply parse_packet_44. Qed.

Lemma quote_packet_layout_witness :
  parse_packet false zero_tick (replicate 44 x01)
  = Ok (quote_tick zero_tick (replicate 44 x01)).
Proof.
  apply (quote_packet_layout false zero_tick (replicate 44 x01)). reflexivity.
Defined.

(** X10: the 184-byte packet: the members of the 44-byte packet, then last trade
    time, open interest, its day high and day low and the timestamp in bytes
    [44..64), then ten depth entries of twelve bytes (int32 quantity, int32
    price over the divisor, int16 orders, two bytes unused), of which the
    first five are appended to the buy side and the last five to the sell
    side, in packet order; the mode is full. *)
Theorem full_packet_layout (be : bool) (d : tick) (packet : list byte) :
  length packet = 184%nat → parse_packet be d packet = Ok (full_tick d packet).
Proof. apply parse_packet_184. Qed.

Lemma full_packet_layout_witness :
  parse_packet false zero_tick (replicate 184 x01)
  = Ok (full_tick zero_tick (replicate 184 x01))
  ∧ length (buy (marketDepth (full_tick zero_tick (replicate 184 x01)))) = 5%nat
  ∧ length (sell (marketDepth (full_tick zero_tick (replicate 184 x01)))) = 5%nat.
Proof.
  split; [apply (full_packet_layout false zero_tick (replicate 184 x01)); reflexivity|].
  split; reflexivity.
Defined.

(** ** Binary messages *)

Lemma parse_packets_good (be : bool) (d : tick) (ps : list (list byte)) :
  Forall (fun p => (4 ≤ length p)%nat ∧ length p ≠ 32%nat) ps →
  ∃ ticks, parse_packets be d ps = Ok ticks
           ∧ Forall2 (fun p t => parse_packet be d p = Ok t) ps ticks.
Proof.
  induction 1 as [|p ps [H4 H32] _ (ticks & IH & HF)].
  - exists []. split; [reflexivity|constructor].
  - destruct (parse_packet_result be d p) as [[Hbad _]|(_ & _ & t & Ht)]; [lia|].
    exists (t :: ticks). cbn [parse_packets]. rewrite Ht, outcome_bind_Ok, IH.
    split; [reflexivity|]. constructor; assumption.
Qed.

Lemma parse_packets_bad (be : bool) (d : tick) (ps : list (list byte)) :
  Exists (fun p => (length p < 4)%nat ∨ length p = 32%nat) ps →
  parse_packets be d ps = Undefined OutOfBounds.
Proof.
  induction ps as [|p ps IH]; intros Hex; [inversion Hex|].
  cbn [parse_packets].
  destruct (parse_packet_result be d p) as [[_ ->]|(H4 & H32 & t & ->)];
    [reflexivity|].
  rewrite outcome_bind_Ok. apply Exists_cons in Hex as [Hbad|Hex]; [lia|].
  rewrite (IH Hex). reflexivity.
Qed.

Lemma parseBinaryMessage_frame (be : bool) (d : tick) (ps : list (list byte))
    (rest : list byte) :
  Z.of_nat (length ps) ≤ INT16_MAX → packets_fit ps →
  _parseBinaryMessage be d (encode_frame ps ++ rest) = parse_packets be d ps.
Proof.
  intros Hn Hfit. unfold _parseBinaryMessage.
  rewrite splitPackets_encode_frame_app by assumption. rewrite outcome_bind_Ok.
  destruct ps; reflexivity.
Qed.

(** X11: a frame that carries packets of decodable lengths gives one tick for each
    packet, in the order of the packets, each the tick of its packet alone;
    a frame that announces no packet gives the empty list. *)
Theorem parseBinaryMessage_ticks (be : bool) (d : tick) (ps : list (list byte))
    (rest : list byte) :
  Z.of_nat (length ps) ≤ INT16_MAX → packets_fit ps →
  Forall (fun p => (4 ≤ length p)%nat ∧ length p ≠ 32%nat) ps →
  ∃ ticks, _parseBinaryMessage be d (encode_frame ps ++ rest) = Ok ticks
           ∧ length ticks = length ps
           ∧ Forall2 (fun p t => parse_packet be d p = Ok t) ps ticks
           ∧ (ps = [] → ticks = []).
Proof.
  intros Hn Hfit Hgood. rewrite parseBinaryMessage_frame by assumption.
  destruct (parse_packets_good be d ps Hgood) as (ticks & -> & HF).
  exists ticks. split; [reflexivity|]. split; [symmetry; exact (Forall2_length _ _ _ HF)|].
  split; [exact HF|]. intros ->. inversion HF. reflexivity.
Qed.

Lemma parseBinaryMessage_ticks_witness :
  ∃ ticks, _parseBinaryMessage false zero_tick (encode_frame [ltp_packet; ltp_packet] ++ [])
           = Ok ticks
           ∧ length ticks = length [ltp_packet; ltp_packet]
           ∧ Forall2 (fun p t => parse_packet false zero_tick p = Ok t)
               [ltp_packet; ltp_packet] ticks
           ∧ ([ltp_packet; ltp_packet] = [] → ticks = []).
Proof.
  apply (parseBinaryMessage_ticks false zero_tick [ltp_packet; ltp_packet] []).
  - vm_compute. discriminate.
  - repeat (constructor; [vm_compute; discriminate|]). constructor.
  - repeat (constructor; [split; [vm_compute; lia|discriminate]|]). constructor.
Defined.

(** X12: the decoder neither skips nor rejects a packet of a length it cannot
    read, fewer than four bytes or thirty-two: on a frame that holds one,
    wherever in the frame, the run of the decoder reads past the end of that
    packet. That read is undefined behaviour, so the program settles no
    result for the frame as a whole, the ticks of its other packets
    included. *)
Theorem parseBinaryMessage_spoiled (be : bool) (d : tick) (ps : list (list byte))
    (rest : list byte) :
  Z.of_nat (length ps) ≤ INT16_MAX → packets_fit ps →
  Exists (fun p => (length p < 4)%nat ∨ length p = 32%nat) ps →
  _parseBinaryMessage be d (encode_frame ps ++ rest) = Undefined OutOfBounds.
Proof.
  intros Hn Hfit Hbad. rewrite parseBinaryMessage_frame by assumption.
  apply parse_packets_bad, Hbad.
Qed.

Lemma parseBinaryMessage_spoiled_witness :
  _parseBinaryMessage false zero_tick (encode_frame [ltp_packet; [x01; x02]] ++ [])
  = Undefined OutOfBounds.
Proof.
  apply (parseBinaryMessage_spoiled false zero_tick [ltp_packet; [x01; x02]] []).
  - vm_compute. discriminate.
  - repeat (constructor; [vm_compute; discriminate|]). constructor.
  - apply Exists_cons_tl, Exists_cons_hd. left. vm_compute. lia.
Defined.

(** ** The message handler *)

Section MessageHandler.

Variable be : bool.
Variable d : tick.
Variable _parse : string → outcome json.
Variable _getIfExists : list (string * json) → string → string → outcome string.
Variable FMT : string → list string → string.

Abbreviation onMessage_handler := (hub_onMessage be d _parse _getIfExists FMT).
Abbreviation text_router := (_processTextMessage _parse _getIfExists FMT).

Lemma length_encode_frame_app (ps : list (list byte)) (rest : list byte) :
  (2 ≤ length (encode_frame ps ++ rest))%nat.
Proof. unfold encode_frame. rewrite !length_app, length_be16. lia. Qed.

(** X13: while [onTicks] is not set a binary frame is dropped unread, whatever its
    length and content: no parsing, no callback, no change of the client, and
    no failure even on a frame that could not be decoded. *)
Theorem binary_frame_without_onTicks (self : kiteWS) (message : list byte) (now : Z) :
  onTicks self = false →
  onMessage_handler message BINARY now self = (Ok tt, self, []).
Proof.
  intros Hoff. unfold hub_onMessage, mbind, M_bind, this. rewrite Hoff. reflexivity.
Qed.

(** X14: with [onTicks] set, a binary frame that carries packets of decodable
    lengths makes the handler call [onTicks] exactly once, with one tick for
    each packet in packet order, and leaves the client as it was, the time of
    the last heartbeat included; a frame that announces no packet still calls
    [onTicks], with an empty list. *)
Theorem binary_frame_ticks (self : kiteWS) (ps : list (list byte)) (rest : list byte)
    (now : Z) :
  onTicks self = true →
  Z.of_nat (length ps) ≤ INT16_MAX → packets_fit ps →
  Forall (fun p => (4 ≤ length p)%nat ∧ length p ≠ 32%nat) ps →
  ∃ ticks, onMessage_handler (encode_frame ps ++ rest) BINARY now self
           = (Ok tt, self, [CallOnTicks ticks])
           ∧ Forall2 (fun p t => parse_packet be d p = Ok t) ps ticks.
Proof.
  intros Hon Hn Hfit Hgood.
  destruct (parse_packets_good be d ps Hgood) as (ticks & Hticks & HF).
  exists ticks. split; [|exact HF].
  rewrite <- (parseBinaryMessage_frame be d ps rest Hn Hfit) in Hticks.
  unfold hub_onMessage, mbind, M_bind, this, lift, emit. rewrite Hon. cbn [is_binary andb].
  pose proof (length_encode_frame_app ps rest) as Hlen.
  destruct (Nat.eqb_spec (length (encode_frame ps ++ rest)) 1); [lia|].
  rewrite Hticks. reflexivity.
Qed.

(** X15: with [onTicks] set, an empty binary frame is handed to the parser, whose
    read of the packet count is out of bounds: the handler has no defined
    outcome and calls nothing. *)
Theorem empty_binary_frame (self : kiteWS) (now : Z) :
  onTicks self = true →
  onMessage_handler [] BINARY now self = (Undefined OutOfBounds, self, []).
Proof.
  intros Hon. unfold hub_onMessage, mbind, M_bind, this, lift. rewrite Hon.
  cbn [is_binary andb length Nat.eqb]. unfold _parseBinaryMessage, _splitPackets.
  rewrite getNum_past_end by (cbn [length]; lia). reflexivity.
Qed.

(** Frames that are neither text nor binary make the handler do nothing. *)
Lemma control_frame_ignored (self : kiteWS) (message : list byte) (opCode : OpCode)
    (now : Z) :
  opCode ≠ TEXT → opCode ≠ BINARY →
  onMessage_handler message opCode now self = (Ok tt, self, []).
Proof.
  intros Ht Hb. unfold hub_onMessage, mbind, M_bind, this.
  destruct opCode; try congruence; reflexivity.
Qed.

(** X16: a text frame whose document is not an object is refused with the
    exception "Expected a JSON object"; no callback is called. *)
Theorem text_not_object (self : kiteWS) (message : list byte) (doc : json) (now : Z) :
  _parse (String.string_of_list_byte message) = Ok doc →
  (∀ members, doc ≠ JObject members) →
  onMessage_handler message TEXT now self
  = (Throw (libException "Expected a JSON object"), self, []).
Proof.
  intros Hparse Hno.
  unfold hub_onMessage, _processTextMessage, mbind, M_bind, this, lift.
  destruct (onTicks self); cbn [is_binary is_text andb]; rewrite Hparse;
    (destruct doc; try reflexivity; exfalso; eapply Hno; reflexivity).
Qed.


End MessageHandler.

Lemma binary_frame_without_onTicks_witness :
  hub_onMessage false zero_tick (parse_as JNull) getIfExists_string plain_FMT
    [xff; xff; xff] BINARY 5 new_client
  = (Ok tt, new_client, []).
Proof.
  apply (binary_frame_without_onTicks false zero_tick (parse_as JNull)
           getIfExists_string plain_FMT new_client [xff; xff; xff] 5).
  reflexivity.
Defined.

Lemma binary_frame_ticks_witness :
  ∃ ticks,
    hub_onMessage false zero_tick (parse_as JNull) getIfExists_string plain_FMT
      (encode_frame [ltp_packet] ++ []) BINARY 5 (with_callbacks new_client)
    = (Ok tt, with_callbacks new_client, [CallOnTicks ticks])
    ∧ Forall2 (fun p t => parse_packet false zero_tick p = Ok t) [ltp_packet] ticks.
Proof.
  apply (binary_frame_ticks false zero_tick (parse_as JNull) getIfExists_string
           plain_FMT (with_callbacks new_client) [ltp_packet] [] 5).
  - reflexivity.
  - vm_compute. discriminate.
  - repeat (constructor; [vm_compute; discriminate|]). constructor.
  - repeat (constructor; [split; [vm_compute; lia|discriminate]|]). constructor.
Defined.

Lemma empty_binary_frame_witness :
  hub_onMessage false zero_tick (parse_as JNull) getIfExists_string plain_FMT
    [] BINARY 5 (with_callbacks new_client)
  = (Undefined OutOfBounds, with_callbacks new_client, []).
Proof.
  apply (empty_binary_frame false zero_tick (parse_as JNull) getIfExists_string
           plain_FMT (with_callbacks new_client) 5).
  reflexivity.
Defined.

Lemma control_frame_ignored_witness :
  hub_onMessage false zero_tick (parse_as JNull) getIfExists_string plain_FMT
    [x01] PING 5 (with_callbacks new_client)
  = (Ok tt, with_callbacks new_client, []).
Proof.
  apply (control_frame_ignored false zero_tick (parse_as JNull) getIfExists_string
           plain_FMT (with_callbacks new_client) [x01] PING 5); discriminate.
Defined.

Lemma text_not_object_witness :
  hub_onMessage false zero_tick (parse_as (JArray [])) getIfExists_string plain_FMT
    [] TEXT 5 (with_callbacks new_client)
  = (Throw (libException "Expected a JSON object"), with_callbacks new_client, []).
Proof.
  apply (text_not_object false zero_tick (parse_as (JArray [])) getIfExists_string
           plain_FMT (with_callbacks new_client) [] (JArray []) 5).
  - reflexivity.
  - discriminate.
Defined.


(** ** Subscription ledger *)

Lemma lookup_foldl_delete (toks : list Z) :
  ∀ (ledger : gmap Z string) (k : Z),
  foldl (fun m tok => delete tok m) ledger toks !! k
  = if decide (k ∈ toks) then None else ledger !! k.
Proof.
  induction toks as [|x toks IH]; intros ledger k; cbn [foldl].
  - rewrite decide_False by apply not_elem_of_nil. reflexivity.
  - rewrite IH. destruct (decide (k ∈ toks)) as [Hin|Hnin].
    + rewrite decide_True by (apply elem_of_cons; auto). reflexivity.
    + destruct (decide (k = x)) as [->|Hne].
      * rewrite decide_True by (apply elem_of_cons; auto). apply lookup_delete_eq.
      * rewrite decide_False by (apply not_elem_of_cons; auto).
        apply lookup_delete_ne. congruence.
Qed.

Lemma unsubscribe_connected (self : kiteWS) (ws : WebSocket) (toks : list Z) :
  _WS self = Some ws →
  unsubscribe toks self
  = (Ok tt,
     set__subbedInstruments
       (foldl (fun m tok => delete tok m) (_subbedInstruments self) toks) self,
     [Send ws (unsubscribe_request toks)]).
Proof.
  intros Hws. unfold unsubscribe, mbind, M_bind, this. rewrite Hws. reflexivity.
Qed.

(** X18: on a connected client [unsubscribe] removes every token of its argument
    from the ledger, whether it was there or not and however often it is
    listed, leaves every other entry as it was, and sends one unsubscribe
    request that lists the tokens as given. *)
Theorem unsubscribe_ledger (self : kiteWS) (ws : WebSocket) (toks : list Z) (tok : Z) :
  _WS self = Some ws →
  result_of (unsubscribe toks self) = Ok tt
  ∧ effects_of (unsubscribe toks self) = [Send ws (unsubscribe_request toks)]
  ∧ (tok ∈ toks → _subbedInstruments (object_after (unsubscribe toks self)) !! tok = None)
  ∧ (tok ∉ toks →
     _subbedInstruments (object_after (unsubscribe toks self)) !! tok
     = _subbedInstruments self !! tok).
Proof.
  intros Hws. rewrite (unsubscribe_connected self ws toks Hws).
  unfold result_of, object_after, effects_of. cbn [fst snd set__subbedInstruments
    _subbedInstruments]. rewrite lookup_foldl_delete.
  repeat split.
  - intros Hin. rewrite decide_True by exact Hin. reflexivity.
  - intros Hnin. rewrite decide_False by exact Hnin. reflexivity.
Qed.

Lemma unsubscribe_ledger_witness :
  let self := connected_client scenario_ledger in
  result_of (unsubscribe [200; 7; 200] self) = Ok tt
  ∧ effects_of (unsubscribe [200; 7; 200] self)
    = [Send (socket 1) (unsubscribe_request [200; 7; 200])]
  ∧ (200 ∈ [200; 7; 200] →
     _subbedInstruments (object_after (unsubscribe [200; 7; 200] self)) !! 200 = None)
  ∧ (200 ∉ [200; 7; 200] →
     _subbedInstruments (object_after (unsubscribe [200; 7; 200] self)) !! 200
     = _subbedInstruments self !! 200).
Proof.
  apply (unsubscribe_ledger (connected_client scenario_ledger) (socket 1) [200; 7; 200] 200).
  reflexivity.
Defined.

(** X19: on a connected client, [subscribe] of a list followed by [unsubscribe] of
    the same list both succeed and send their two requests in that order;
    afterwards the ledger holds none of the tokens of the list, also not those
    it held before, and every other entry is as before. *)
Theorem subscribe_then_unsubscribe (self : kiteWS) (ws : WebSocket) (toks : list Z)
    (tok : Z) :
  _WS self = Some ws →
  let run := (subscribe toks;; unsubscribe toks) self in
  result_of run = Ok tt
  ∧ effects_of run
    = [Send ws (subscribe_request toks); Send ws (unsubscribe_request toks)]
  ∧ _subbedInstruments (object_after run) !! tok
    = (if decide (tok ∈ toks) then None else _subbedInstruments self !! tok).
Proof.
  intros Hws run.
  assert (run = (Ok tt,
                 set__subbedInstruments
                   (foldl (fun m t => delete t m)
                      (foldl (fun m t => <[t := ""%string]> m) (_subbedInstruments self) toks)
                      toks) self,
                 [Send ws (subscribe_request toks)] ++ [Send ws (unsubscribe_request toks)]))
    as ->.
  { unfold run. eapply M_bind_Ok; [apply subscribe_connected, Hws|].
    rewrite (unsubscribe_connected _ ws) by exact Hws. reflexivity. }
  unfold result_of, object_after, effects_of.
  cbn [fst snd set__subbedInstruments _subbedInstruments].
  repeat split. rewrite lookup_foldl_delete.
  destruct (decide (tok ∈ toks)) as [Hin|Hnin]; [reflexivity|].
  rewrite lookup_foldl_insert, decide_False by exact Hnin. reflexivity.
Qed.

Lemma subscribe_then_unsubscribe_witness :
  let run := (subscribe [100; 7];; unsubscribe [100; 7]) (connected_client scenario_ledger) in
  result_of run = Ok tt
  ∧ effects_of run
    = [Send (socket 1) (subscribe_request [100; 7]);
       Send (socket 1) (unsubscribe_request [100; 7])]
  ∧ _subbedInstruments (object_after run) !! 100
    = (if decide (100 ∈ [100; 7]) then None
       else _subbedInstruments (connected_client scenario_ledger) !! 100).
Proof.
  apply (subscribe_then_unsubscribe (connected_client scenario_ledger) (socket 1)
           [100; 7] 100).
  reflexivity.
Defined.

(** X20: on a connected client [setMode] gives every token of its argument the
    mode, inserting the tokens that were not subscribed, so that the ledger
    afterwards holds exactly the tokens it held together with those of the
    argument; every other entry keeps its mode; and one mode request is sent,
    also for an empty list of tokens. *)
Theorem setMode_ledger (self : kiteWS) (ws : WebSocket) (mode : string) (toks : list Z) :
  _WS self = Some ws →
  let self' := object_after (setMode mode toks self) in
  effects_of (setMode mode toks self) = [Send ws (mode_request mode toks)]
  ∧ dom (_subbedInstruments self') = dom (_subbedInstruments self) ∪ list_to_set toks
  ∧ (∀ tok, tok ∈ toks → _subbedInstruments self' !! tok = Some mode)
  ∧ (∀ tok, tok ∉ toks → _subbedInstruments self' !! tok = _subbedInstruments self !! tok).
Proof.
  intros Hws self'. unfold self'. rewrite (setMode_connected self ws mode toks Hws).
  unfold object_after, effects_of.
  cbn [fst snd set__subbedInstruments _subbedInstruments].
  split; [reflexivity|]. split; [|split].
  - apply set_eq. intros k.
    rewrite elem_of_union, !elem_of_dom, lookup_foldl_insert, elem_of_list_to_set.
    destruct (decide (k ∈ toks)); [|tauto].
    split; [auto|]. intros _. eexists. reflexivity.
  - intros tok Hin. rewrite lookup_foldl_insert, decide_True by exact Hin. reflexivity.
  - intros tok Hnin. rewrite lookup_foldl_insert, decide_False by exact Hnin. reflexivity.
Qed.

Lemma setMode_ledger_witness :
  let self := connected_client scenario_ledger in
  let self' := object_after (setMode MODE_FULL [100; 7] self) in
  effects_of (setMode MODE_FULL [100; 7] self)
  = [Send (socket 1) (mode_request MODE_FULL [100; 7])]
  ∧ dom (_subbedInstruments self') = dom (_subbedInstruments self) ∪ list_to_set [100; 7]
  ∧ (∀ tok, tok ∈ [100; 7] → _subbedInstruments self' !! tok = Some MODE_FULL)
  ∧ (∀ tok, tok ∉ [100; 7] →
            _subbedInstruments self' !! tok = _subbedInstruments self !! tok).
Proof.
  apply (setMode_ledger (connected_client scenario_ledger) (socket 1) MODE_FULL [100; 7]).
  reflexivity.
Defined.

(** ** Resubscription and the connection handler *)

Lemma when_setMode_object (self : kiteWS) (ws : WebSocket) (mode : string)
    (toks : list Z) :
  _WS self = Some ws →
  when (nonempty toks) (setMode mode toks) self
  = (Ok tt,
     set__subbedInstruments
       (foldl (fun m tok => <[tok := mode]> m) (_subbedInstruments self) toks) self,
     if nonempty toks then [Send ws (mode_request mode toks)] else []).
Proof.
  intros Hws. destruct toks as [|tok toks]; cbn [nonempty when].
  - destruct self. reflexivity.
  - apply setMode_connected, Hws.
Qed.

(** The requests [_resubInstruments] sends for its three lists. *)
Lemma resubInstruments_object (self : kiteWS) (ws : WebSocket) (LTP quote full : list Z) :
  _WS self = Some ws →
  resub_batches (_subbedInstruments self) = (LTP, quote, full) →
  _resubInstruments self
  = (Ok tt,
     set__subbedInstruments
       (foldl (fun m tok => <[tok := MODE_FULL]> m)
          (foldl (fun m tok => <[tok := MODE_QUOTE]> m)
             (foldl (fun m tok => <[tok := MODE_LTP]> m) (_subbedInstruments self) LTP)
             quote)
          full) self,
     (if nonempty LTP then [Send ws (mode_request MODE_LTP LTP)] else [])
     ++ (if nonempty quote then [Send ws (mode_request MODE_QUOTE quote)] else [])
     ++ (if nonempty full then [Send ws (mode_request MODE_FULL full)] else [])).
Proof.
  intros Hws Hb. unfold _resubInstruments.
  change (?x = ?y) with (x = (y.1.1, y.1.2, [] ++ y.2)).
  eapply M_bind_Ok; [reflexivity|]. rewrite Hb.
  eapply M_bind_Ok; [apply when_setMode_object, Hws|].
  eapply M_bind_Ok; [apply when_setMode_object, Hws|].
  rewrite (when_setMode_object _ ws) by exact Hws. reflexivity.
Qed.

Lemma resub_mode_known (m : string) : m ≠ ""%string → resub_mode m = m.
Proof. intros Hm. unfold resub_mode. rewrite decide_False by exact Hm. reflexivity. Qed.

(** What the three rounds of [setMode] leave in the ledger. *)
Lemma lookup_resubscribed (ledger : gmap Z string) (LTP quote full : list Z) (k : Z) :
  resub_batches ledger = (LTP, quote, full) →
  foldl (fun m tok => <[tok := MODE_FULL]> m)
    (foldl (fun m tok => <[tok := MODE_QUOTE]> m)
       (foldl (fun m tok => <[tok := MODE_LTP]> m) ledger LTP) quote) full !! k
  = resub_mode <$> ledger !! k.
Proof.
  intros Hb. rewrite resub_batches_filter in Hb. injection Hb as <- <- <-.
  pose proof (elem_of_batch (fun m => m = MODE_LTP) ledger k) as H1.
  pose proof (elem_of_batch (fun m => m = MODE_QUOTE ∨ m = ""%string) ledger k) as H2.
  pose proof (elem_of_batch (fun m => m = MODE_FULL) ledger k) as H3.
  cbn beta in H1, H2, H3. rewrite !lookup_foldl_insert.
  repeat case_decide.
  1-3: match goal with
       | H : _ ∈ _, Hiff : _ ∈ _ ↔ _ |- _ =>
           apply Hiff in H as (m & -> & Hm); clear Hiff
       end.
  - subst m. reflexivity.
  - destruct Hm as [-> | ->]; reflexivity.
  - subst m. reflexivity.
  - destruct (ledger !! k) as [m|] eqn:Em; [|reflexivity].
    cbn [fmap option_fmap option_map]. f_equal. symmetry. apply resub_mode_known.
    intros ->. apply proj2 in H2. specialize (H2 ltac:(eauto)). contradiction.
Qed.

Lemma NoDup_batch (P : Z * string → Prop) `{∀ i, Decision (P i)}
    (ledger : gmap Z string) :
  NoDup (filter P (map_to_list ledger)).*1.
Proof.
  apply (sublist_NoDup _ (map_to_list ledger).*1); [apply NoDup_fst_map_to_list|].
  apply fmap_sublist, sublist_filter.
Qed.

(** X21: the three lists of the resubscription have no token twice, neither within
    a list nor across lists, and hold subscribed tokens only: no instrument is
    requested in two modes or twice in one. *)
Theorem resub_batches_NoDup (ledger : gmap Z string) (LTP quote full : list Z) :
  resub_batches ledger = (LTP, quote, full) →
  NoDup (LTP ++ quote ++ full)
  ∧ (∀ k, k ∈ LTP ++ quote ++ full → is_Some (ledger !! k)).
Proof.
  intros Hb. rewrite resub_batches_filter in Hb. injection Hb as <- <- <-.
  assert (∀ k, k ∈ (filter (fun i : Z * string => i.2 = MODE_LTP) (map_to_list ledger)).*1
               ↔ ledger !! k = Some MODE_LTP) as H1.
  { intros k. pose proof (elem_of_batch (fun m => m = MODE_LTP) ledger k) as Hk.
    cbn beta in Hk. rewrite Hk. split; [intros (m & Hm & ->); exact Hm|eauto]. }
  assert (∀ k, k ∈ (filter (fun i : Z * string => i.2 = MODE_QUOTE ∨ i.2 = ""%string)
                      (map_to_list ledger)).*1
               ↔ ledger !! k = Some MODE_QUOTE ∨ ledger !! k = Some ""%string) as H2.
  { intros k.
    pose proof (elem_of_batch (fun m => m = MODE_QUOTE ∨ m = ""%string) ledger k) as Hk.
    cbn beta in Hk. rewrite Hk.
    split; [intros (m & Hm & [-> | ->]); auto | intros [Hm | Hm]; eauto]. }
  assert (∀ k, k ∈ (filter (fun i : Z * string => i.2 = MODE_FULL) (map_to_list ledger)).*1
               ↔ ledger !! k = Some MODE_FULL) as H3.
  { intros k. pose proof (elem_of_batch (fun m => m = MODE_FULL) ledger k) as Hk.
    cbn beta in Hk. rewrite Hk. split; [intros (m & Hm & ->); exact Hm|eauto]. }
  split.
  - apply NoDup_app. split; [apply NoDup_batch|]. split.
    + intros k Hk Hk'. apply H1 in Hk. apply elem_of_app in Hk' as [Hk' | Hk'].
      * apply H2 in Hk' as [Hk' | Hk']; rewrite Hk in Hk'; discriminate Hk'.
      * apply H3 in Hk'. rewrite Hk in Hk'. discriminate Hk'.
    + apply NoDup_app.
      split; [apply NoDup_batch|]. split; [|apply NoDup_batch].
      intros k Hk Hk'. apply H3 in Hk'.
      apply H2 in Hk as [Hk | Hk]; rewrite Hk in Hk'; discriminate Hk'.
  - intros k Hk. apply elem_of_app in Hk as [Hk | Hk]; [apply H1 in Hk; eauto|].
    apply elem_of_app in Hk as [Hk | Hk]; [apply H2 in Hk as [Hk | Hk]; eauto|].
    apply H3 in Hk. eauto.
Qed.

Lemma resub_batches_NoDup_witness :
  NoDup ([100] ++ [300; 200] ++ [400])
  ∧ (∀ k, k ∈ [100] ++ [300; 200] ++ [400] → is_Some (scenario_ledger !! k)).
Proof.
  apply (resub_batches_NoDup scenario_ledger [100] [300; 200] [400]).
  vm_compute. reflexivity.
Defined.

(** X22: the connection handler never fails, whatever the ledger holds. It leaves
    the client connected to the new socket with the counter of attempts at
    zero, the backoff delay at its initial two seconds and the reconnecting
    flag cleared, records the time as that of the last pong and leaves the
    time of the last heartbeat alone; it sends the mode requests of the
    resubscription first and calls [onConnect], when set, after them; with an
    empty ledger it sends nothing. *)
Theorem connection_handler (self : kiteWS) (ws : WebSocket) (now : Z)
    (LTP quote full : list Z) :
  resub_batches (_subbedInstruments self) = (LTP, quote, full) →
  let run := hub_onConnection ws now self in
  result_of run = Ok tt
  ∧ _WS (object_after run) = Some ws
  ∧ _reconnectTries (object_after run) = 0
  ∧ _reconnectDelay (object_after run) = 2
  ∧ _isReconnecting (object_after run) = false
  ∧ _lastPongTime (object_after run) = now
  ∧ _lastBeatTime (object_after run) = _lastBeatTime self
  ∧ effects_of run
    = ((if nonempty LTP then [Send ws (mode_request MODE_LTP LTP)] else [])
       ++ (if nonempty quote then [Send ws (mode_request MODE_QUOTE quote)] else [])
       ++ (if nonempty full then [Send ws (mode_request MODE_FULL full)] else []))
      ++ (if onConnect self then [CallOnConnect] else [])
  ∧ (_subbedInstruments self = ∅ → effects_of run
                                   = if onConnect self then [CallOnConnect] else []).
Proof.
  intros Hb run.
  set (s1 := set__isReconnecting false
               (set__reconnectDelay _initReconnectDelay
                  (set__reconnectTries 0
                     (set__lastPongTime now (set__WS (Some ws) self))))).
  assert (_resubInstruments s1
          = (Ok tt,
             set__subbedInstruments
               (foldl (fun m tok => <[tok := MODE_FULL]> m)
                  (foldl (fun m tok => <[tok := MODE_QUOTE]> m)
                     (foldl (fun m tok => <[tok := MODE_LTP]> m)
                        (_subbedInstruments self) LTP) quote) full) s1,
             (if nonempty LTP then [Send ws (mode_request MODE_LTP LTP)] else [])
             ++ (if nonempty quote then [Send ws (mode_request MODE_QUOTE quote)] else [])
             ++ (if nonempty full then [Send ws (mode_request MODE_FULL full)] else [])))
    as Hresub by (apply (resubInstruments_object s1 ws); [reflexivity|exact Hb]).
  assert (_subbedInstruments self = ∅ → LTP = [] ∧ quote = [] ∧ full = []) as Hempty.
  { intros He. rewrite He in Hb. vm_compute in Hb. injection Hb as <- <- <-. auto. }
  unfold run, hub_onConnection, mbind, M_bind, assign, this.
  fold s1. change (_subbedInstruments s1) with (_subbedInstruments self).
  change (onConnect s1) with (onConnect self).
  destruct (decide (_subbedInstruments self = ∅)) as [He|Hne].
  - destruct (Hempty He) as (-> & -> & ->).
    rewrite bool_decide_eq_true_2 by exact He. cbn [negb when].
    destruct (onConnect self); repeat split; reflexivity.
  - rewrite bool_decide_eq_false_2 by exact Hne. cbn [negb when]. rewrite Hresub.
    destruct (onConnect self); cbn [when]; repeat split;
      try reflexivity; try contradiction;
      unfold effects_of; cbn [snd]; rewrite ?app_nil_r; reflexivity.
Qed.

Lemma connection_handler_witness :
  let self := set__subbedInstruments scenario_ledger (with_callbacks new_client) in
  let run := hub_onConnection (socket 2) 50 self in
  result_of run = Ok tt
  ∧ _WS (object_after run) = Some (socket 2)
  ∧ _reconnectTries (object_after run) = 0
  ∧ _reconnectDelay (object_after run) = 2
  ∧ _isReconnecting (object_after run) = false
  ∧ _lastPongTime (object_after run) = 50
  ∧ _lastBeatTime (object_after run) = _lastBeatTime self
  ∧ effects_of run
    = ((if nonempty [100] then [Send (socket 2) (mode_request MODE_LTP [100])] else [])
       ++ (if nonempty [300; 200]
           then [Send (socket 2) (mode_request MODE_QUOTE [300; 200])] else [])
       ++ (if nonempty [400] then [Send (socket 2) (mode_request MODE_FULL [400])] else []))
      ++ (if onConnect self then [CallOnConnect] else [])
  ∧ (_subbedInstruments self = ∅ → effects_of run
                                   = if onConnect self then [CallOnConnect] else []).
Proof.
  apply (connection_handler
           (set__subbedInstruments scenario_ledger (with_callbacks new_client))
           (socket 2) 50 [100] [300; 200] [400]).
  vm_compute. reflexivity.
Defined.

Lemma hub_onConnection_run (self : kiteWS) (ws : WebSocket) (now : Z)
    (LTP quote full : list Z) :
  resub_batches (_subbedInstruments self) = (LTP, quote, full) →
  hub_onConnection ws now self
  = (Ok tt,
     set__subbedInstruments
       (foldl (fun m tok => <[tok := MODE_FULL]> m)
          (foldl (fun m tok => <[tok := MODE_QUOTE]> m)
             (foldl (fun m tok => <[tok := MODE_LTP]> m) (_subbedInstruments self) LTP)
             quote) full)
       (set__isReconnecting false
          (set__reconnectDelay _initReconnectDelay
             (set__reconnectTries 0 (set__lastPongTime now (set__WS (Some ws) self))))),
     ((if nonempty LTP then [Send ws (mode_request MODE_LTP LTP)] else [])
      ++ (if nonempty quote then [Send ws (mode_request MODE_QUOTE quote)] else [])
      ++ (if nonempty full then [Send ws (mode_request MODE_FULL full)] else []))
     ++ (if onConnect self then [CallOnConnect] else [])).
Proof.
  intros Hb.
  set (s1 := set__isReconnecting false
               (set__reconnectDelay _initReconnectDelay
                  (set__reconnectTries 0
                     (set__lastPongTime now (set__WS (Some ws) self))))).
  pose proof (resubInstruments_object s1 ws LTP quote full eq_refl Hb) as Hresub.
  change (_subbedInstruments s1) with (_subbedInstruments self) in Hresub.
  unfold hub_onConnection, mbind, M_bind, assign, this.
  fold s1. change (_subbedInstruments s1) with (_subbedInstruments self).
  change (onConnect s1) with (onConnect self).
  destruct (decide (_subbedInstruments self = ∅)) as [He|Hne].
  - assert (LTP = [] ∧ quote = [] ∧ full = []) as (-> & -> & ->).
    { rewrite He in Hb. vm_compute in Hb. injection Hb as <- <- <-. auto. }
    rewrite bool_decide_eq_true_2 by exact He. cbn [negb when foldl nonempty].
    unfold s1. destruct self. destruct onConnect0; reflexivity.
  - rewrite bool_decide_eq_false_2 by exact Hne. cbn [negb when]. rewrite Hresub.
    destruct (onConnect self); reflexivity.
Qed.

(** X23: the connection handler changes the ledger in one way only: every entry
    that was subscribed without a mode holds the mode quote afterwards. All
    other entries keep their mode, the entries with a mode the client does not
    know included, and no token is added or removed. *)
Theorem reconnection_promotes_unset (self : kiteWS) (ws : WebSocket) (now : Z) :
  _subbedInstruments (object_after (hub_onConnection ws now self))
  = resub_mode <$> _subbedInstruments self.
Proof.
  destruct (resub_batches (_subbedInstruments self)) as [[LTP quote] full] eqn:Hb.
  rewrite (hub_onConnection_run self ws now LTP quote full Hb).
  apply map_eq. intros k. rewrite lookup_fmap. apply lookup_resubscribed, Hb.
Qed.

Example reconnection_promotes_unset_scenario :
  _subbedInstruments
    (object_after (hub_onConnection (socket 2) 0
                     (set__subbedInstruments scenario_ledger new_client))) !! 300
  = Some MODE_QUOTE.
Proof. vm_compute. reflexivity. Qed.

(** ** Reconnection *)

Section Reconnection.

Variable cfg : settings.
Variable FMT : string → list string → string.

Abbreviation url := (FMT _connectURLFmt [_apiKey cfg; _accessToken cfg]).

Lemma reconnect_connected (self : kiteWS) :
  isConnected self = true → _reconnect cfg FMT self = (tt, self, []).
Proof.
  intros Hc. unfold _reconnect, mbind, H_bind, h_this. rewrite Hc. reflexivity.
Qed.

Lemma reconnect_attempt (self : kiteWS) :
  isConnected self = false →
  uint (_reconnectTries self + 1) ≤ _maxReconnectTries cfg →
  _reconnect cfg FMT self
  = (tt,
     set__reconnectDelay
       (if _maxReconnectDelay cfg <? uint (_reconnectDelay self * 2)
        then _maxReconnectDelay cfg else uint (_reconnectDelay self * 2))
       (set__reconnectTries (uint (_reconnectTries self + 1))
          (set__isReconnecting true self)),
     [SleepFor (_reconnectDelay self)]
     ++ (if onTryReconnect self
         then [CallOnTryReconnect (uint (_reconnectTries self + 1))] else [])
     ++ [HubConnect url (_connectTimeout cfg)]).
Proof.
  intros Hc Htries.
  unfold _reconnect, _connect, mbind, H_bind, h_this, h_assign, h_emit, h_when.
  rewrite Hc. cbn [set__isReconnecting set__reconnectTries _reconnectTries].
  destruct (Z.leb_spec (uint (_reconnectTries self + 1)) (_maxReconnectTries cfg)); [|lia].
  cbn [set__reconnectDelay onTryReconnect _reconnectDelay _reconnectTries].
  destruct self as [? ? ? ? ? ? otr ? ? ? ws ? ? ? ? ?]. cbn in Hc |- *.
  destruct otr, ws; try discriminate Hc; reflexivity.
Qed.

Lemma reconnect_exhausted (self : kiteWS) :
  isConnected self = false →
  _maxReconnectTries cfg < uint (_reconnectTries self + 1) →
  _reconnect cfg FMT self
  = (tt,
     set__isReconnecting false
       (set__reconnectTries (uint (_reconnectTries self + 1)) self),
     if onReconnectFail self then [CallOnReconnectFail] else []).
Proof.
  intros Hc Htries.
  unfold _reconnect, _connect, mbind, H_bind, h_this, h_assign, h_emit, h_when.
  rewrite Hc. cbn [set__isReconnecting set__reconnectTries _reconnectTries].
  destruct (Z.leb_spec (uint (_reconnectTries self + 1)) (_maxReconnectTries cfg)); [lia|].
  destruct self as [? ? ? ? ? ? ? orf ? ? ws ? ? ? ? ?]. cbn in Hc |- *.
  destruct orf; reflexivity.
Qed.

(** X24: an attempt to reconnect, on a client that is not connected and has
    attempts left: the client waits for the delay it holds, then calls
    [onTryReconnect], when set, with the number of the attempt, then asks the
    hub for a connection, once, with the address built from the credentials.
    Afterwards the attempt is counted, the reconnecting flag is set, and the
    delay is the smaller of twice the old delay and the maximal delay, so at
    most the maximal delay; the ledger and the socket are untouched. *)
Theorem reconnect_attempt_backoff (self : kiteWS) :
  isConnected self = false →
  0 ≤ _reconnectTries self →
  _reconnectTries self + 1 ≤ _maxReconnectTries cfg →
  _maxReconnectTries cfg < 4294967296 →
  0 ≤ _reconnectDelay self →
  _reconnectDelay self * 2 < 4294967296 →
  let run := _reconnect cfg FMT self in
  h_effects run
  = [SleepFor (_reconnectDelay self)]
    ++ (if onTryReconnect self
        then [CallOnTryReconnect (_reconnectTries self + 1)] else [])
    ++ [HubConnect url (_connectTimeout cfg)]
  ∧ _reconnectTries (h_object run) = _reconnectTries self + 1
  ∧ _isReconnecting (h_object run) = true
  ∧ _reconnectDelay (h_object run)
    = Z.min (_reconnectDelay self * 2) (_maxReconnectDelay cfg)
  ∧ _reconnectDelay (h_object run) ≤ _maxReconnectDelay cfg
  ∧ _subbedInstruments (h_object run) = _subbedInstruments self
  ∧ _WS (h_object run) = _WS self.
Proof.
  intros Hc Ht0 Ht Hmax Hd0 Hd run. unfold run.
  rewrite reconnect_attempt by (rewrite ?uint_small by lia; assumption || lia).
  rewrite !uint_small by lia.
  unfold h_effects, h_object.
  cbn [fst snd set__reconnectDelay set__reconnectTries set__isReconnecting
       _reconnectTries _isReconnecting _reconnectDelay _subbedInstruments _WS].
  repeat split;
    destruct (Z.ltb_spec (_maxReconnectDelay cfg) (_reconnectDelay self * 2)); lia.
Qed.

(** X25: an attempt to reconnect when the attempts are used up: the client does
    not wait and asks for no connection; it calls [onReconnectFail], when
    set, clears the reconnecting flag, and still counts the attempt. *)
Theorem reconnect_attempts_exhausted (self : kiteWS) :
  isConnected self = false →
  0 ≤ _reconnectTries self < 4294967295 →
  _maxReconnectTries cfg < _reconnectTries self + 1 →
  let run := _reconnect cfg FMT self in
  h_effects run = (if onReconnectFail self then [CallOnReconnectFail] else [])
  ∧ sleeps (h_effects run) = []
  ∧ connects (h_effects run) = []
  ∧ _isReconnecting (h_object run) = false
  ∧ _reconnectTries (h_object run) = _reconnectTries self + 1
  ∧ _reconnectDelay (h_object run) = _reconnectDelay self.
Proof.
  intros Hc Ht Hmax run. unfold run.
  rewrite reconnect_exhausted by (rewrite ?uint_small by lia; assumption || lia).
  rewrite !uint_small by lia. unfold h_effects, h_object. cbn [fst snd].
  destruct (onReconnectFail self); repeat split; reflexivity.
Qed.

(** On a connected client [_reconnect] does nothing at all. *)
Lemma reconnect_noop_connected (self : kiteWS) :
  isConnected self = true →
  h_effects (_reconnect cfg FMT self) = [] ∧ h_object (_reconnect cfg FMT self) = self.
Proof. intros Hc. rewrite reconnect_connected by exact Hc. split; reflexivity. Qed.

End Reconnection.

(** ** Disconnection and connection errors *)

Section Disconnection.

Variable cfg : settings.
Variable FMT : string → list string → string.
Variable WS_close : WebSocket → Z → H unit.

(** [_reconnect] touches the two counters and the flag of the backoff, and
    nothing else. *)
Lemma reconnect_frame (self : kiteWS) :
  _WS (h_object (_reconnect cfg FMT self)) = _WS self
  ∧ _subbedInstruments (h_object (_reconnect cfg FMT self)) = _subbedInstruments self
  ∧ _lastBeatTime (h_object (_reconnect cfg FMT self)) = _lastBeatTime self
  ∧ _lastPongTime (h_object (_reconnect cfg FMT self)) = _lastPongTime self.
Proof.
  destruct (isConnected self) eqn:Hc.
  - rewrite reconnect_connected by exact Hc. repeat split.
  - destruct (Z_le_gt_dec (uint (_reconnectTries self + 1)) (_maxReconnectTries cfg)).
    + rewrite reconnect_attempt by assumption. repeat split.
    + rewrite reconnect_exhausted by (assumption || lia). repeat split.
Qed.

Lemma hub_onDisconnection_clean (reason : list byte) (self : kiteWS) :
  hub_onDisconnection cfg FMT 1000 reason self
  = (tt, set__WS None self,
     if onClose self then [CallOnClose 1000 (String.string_of_list_byte reason)] else []).
Proof.
  unfold hub_onDisconnection, mbind, H_bind, h_this, h_assign, h_emit, h_when.
  cbn [Z.eqb Pos.eqb negb]. change (onClose (set__WS None self)) with (onClose self).
  destruct (onClose self); reflexivity.
Qed.

Lemma hub_onDisconnection_unclean (code : Z) (reason : list byte) (self : kiteWS) :
  code ≠ 1000 →
  hub_onDisconnection cfg FMT code reason self
  = (tt,
     (if _enableReconnect cfg && negb (_isReconnecting self)
      then h_object (_reconnect cfg FMT (set__WS None self)) else set__WS None self),
     (if onError self
      then [Client (CallOnError code (String.string_of_list_byte reason))] else [])
     ++ (if onClose self
         then [CallOnClose code (String.string_of_list_byte reason)] else [])
     ++ (if _enableReconnect cfg && negb (_isReconnecting self)
         then h_effects (_reconnect cfg FMT (set__WS None self)) else [])).
Proof.
  intros Hcode.
  unfold hub_onDisconnection, mbind, H_bind, h_this, h_assign, h_emit, h_when,
    h_object, h_effects.
  destruct (Z.eqb_spec code 1000); [contradiction|].
  destruct self as [oc ot oo om oe oce otr orf ocl led ws rd rt ir lp lb].
  destruct (_enableReconnect cfg), ir, oe, ocl; cbn -[_reconnect];
    try reflexivity;
    match goal with
    | |- context [_reconnect cfg FMT ?s] =>
        destruct (_reconnect cfg FMT s) as [[[] s'] out]
    end; reflexivity.
Qed.

(** X27: a close with code 1000 is clean: the handler clears the socket and calls
    [onClose], when set, and nothing else. It does not call [onError], does
    not wait and asks for no new connection, whether reconnection is enabled
    or not, and the counters of the backoff stay as they are. *)
Theorem clean_close (reason : list byte) (self : kiteWS) :
  let run := hub_onDisconnection cfg FMT 1000 reason self in
  h_object run = set__WS None self
  ∧ h_effects run
    = (if onClose self
       then [CallOnClose 1000 (String.string_of_list_byte reason)] else [])
  ∧ sleeps (h_effects run) = []
  ∧ connects (h_effects run) = [].
Proof.
  intros run. unfold run. rewrite hub_onDisconnection_clean.
  unfold h_object, h_effects. cbn [fst snd].
  destruct (onClose self); repeat split; reflexivity.
Qed.

(** X28: a close with any other code: the handler calls [onError] with the code
    and the reason, then [onClose], each when set, and only after both does it
    start to reconnect, which it does when reconnection is enabled and no
    reconnection is under way; otherwise it stops there. *)
Theorem unclean_close (code : Z) (reason : list byte) (self : kiteWS) :
  code ≠ 1000 →
  let run := hub_onDisconnection cfg FMT code reason self in
  let text := String.string_of_list_byte reason in
  let calls := (if onError self then [Client (CallOnError code text)] else [])
               ++ (if onClose self then [CallOnClose code text] else []) in
  (_enableReconnect cfg = true → _isReconnecting self = false →
   h_effects run = calls ++ h_effects (_reconnect cfg FMT (set__WS None self))
   ∧ h_object run = h_object (_reconnect cfg FMT (set__WS None self)))
  ∧ (_enableReconnect cfg = false ∨ _isReconnecting self = true →
     h_effects run = calls ∧ h_object run = set__WS None self).
Proof.
  intros Hcode run text calls. unfold run, calls, text.
  rewrite hub_onDisconnection_unclean by exact Hcode.
  unfold h_object at 1 3, h_effects at 1 3. cbn [fst snd].
  split.
  - intros -> ->. cbn [andb negb]. rewrite <- app_assoc. split; reflexivity.
  - intros [-> | ->]; rewrite ?andb_false_r; cbn [andb negb];
      rewrite app_nil_r; split; reflexivity.
Qed.

(** X29: however the connection ends, the handler leaves the client disconnected
    and never touches the ledger or the times of the last heartbeat and the
    last pong: what was subscribed is still there for the resubscription. *)
Theorem disconnection_keeps_ledger (code : Z) (reason : list byte) (self : kiteWS) :
  let self' := h_object (hub_onDisconnection cfg FMT code reason self) in
  isConnected self' = false
  ∧ _subbedInstruments self' = _subbedInstruments self
  ∧ _lastBeatTime self' = _lastBeatTime self
  ∧ _lastPongTime self' = _lastPongTime self.
Proof.
  intros self'. unfold self'.
  destruct (Z.eq_dec code 1000) as [->|Hcode].
  - rewrite hub_onDisconnection_clean. repeat split.
  - rewrite hub_onDisconnection_unclean by exact Hcode.
    destruct (reconnect_frame (set__WS None self)) as (Hws & Hl & Hb & Hp).
    unfold h_object in *. cbn [fst snd] in *.
    destruct (_enableReconnect cfg && negb (_isReconnecting self)); [|repeat split].
    unfold isConnected. rewrite Hws, Hl, Hb, Hp. repeat split.
Qed.

Lemma hub_onError_disconnected (self : kiteWS) :
  _WS self = None →
  hub_onError cfg FMT WS_close self
  = (tt,
     (if _enableReconnect cfg then h_object (_reconnect cfg FMT self) else self),
     (if onConnectError self then [CallOnConnectError] else [])
     ++ (if _enableReconnect cfg then h_effects (_reconnect cfg FMT self) else [])).
Proof.
  intros Hws.
  unfold hub_onError, mbind, H_bind, h_this, h_emit, h_when, h_object, h_effects.
  destruct self as [oc ot oo om oe oce otr orf ocl led ws rd rt ir lp lb].
  cbn in Hws. subst ws.
  destruct (_enableReconnect cfg), oce; cbn -[_reconnect];
    try reflexivity;
    match goal with
    | |- context [_reconnect cfg FMT ?s] =>
        destruct (_reconnect cfg FMT s) as [[[] s'] out]
    end; reflexivity.
Qed.

(** X30: a failure to connect, on a client without a socket: the handler calls
    [onConnectError], when set, closes nothing, and then makes one attempt to
    reconnect when reconnection is enabled, also while a reconnection is
    already under way; with reconnection disabled it leaves the client as it
    is. *)
Theorem connect_error (self : kiteWS) :
  _WS self = None →
  let run := hub_onError cfg FMT WS_close self in
  let call := if onConnectError self then [CallOnConnectError] else [] in
  (_enableReconnect cfg = true →
   h_effects run = call ++ h_effects (_reconnect cfg FMT self)
   ∧ h_object run = h_object (_reconnect cfg FMT self))
  ∧ (_enableReconnect cfg = false → h_effects run = call ∧ h_object run = self).
Proof.
  intros Hws run call. unfold run, call. rewrite hub_onError_disconnected by exact Hws.
  unfold h_object at 1 3, h_effects at 1 3. cbn [fst snd].
  split; intros ->; [|rewrite app_nil_r]; split; reflexivity.
Qed.

End Disconnection.

(** ** The backoff over a run of failures *)

Lemma sleeps_app (out out' : list hub_effect) :
  sleeps (out ++ out') = sleeps out ++ sleeps out'.
Proof. apply omap_app. Qed.

Lemma connects_app (out out' : list hub_effect) :
  connects (out ++ out') = connects out ++ connects out'.
Proof. apply omap_app. Qed.

Lemma backoff_delay_step (maxDelay : Z) (n : nat) :
  0 ≤ maxDelay < 2147483648 →
  0 ≤ backoff_delay maxDelay n
  ∧ backoff_delay maxDelay n * 2 < 4294967296
  ∧ Z.min (backoff_delay maxDelay n * 2) maxDelay = backoff_delay maxDelay (S n).
Proof.
  intros Hmax. destruct n as [|n].
  - cbn [backoff_delay]. unfold _initReconnectDelay.
    change (2 ^ (Z.of_nat 1 + 1)) with 4. lia.
  - cbn [backoff_delay].
    replace (Z.of_nat (S (S n)) + 1) with (Z.succ (Z.of_nat (S n) + 1)) by lia.
    rewrite Z.pow_succ_r by lia.
    assert (0 < 2 ^ (Z.of_nat (S n) + 1)) by (apply Z.pow_pos_nonneg; lia). lia.
Qed.

(** X26: failures to connect in a row, on a client that was idle, with
    reconnection enabled, attempts left and a maximal delay below 2^31
    seconds, so that twice a delay never wraps around: the client waits two
    seconds before the first attempt and before each later one twice as long
    as before, but never longer than the maximal delay, and asks for exactly
    one connection per failure; the counter of attempts is the number of
    failures. *)
Theorem backoff_sequence (cfg : settings) (FMT : string → list string → string)
    (WS_close : WebSocket → Z → H unit) (self : kiteWS) (n : nat) :
  _enableReconnect cfg = true →
  idle self →
  Z.of_nat n ≤ _maxReconnectTries cfg →
  _maxReconnectTries cfg < 4294967296 →
  0 ≤ _maxReconnectDelay cfg < 2147483648 →
  let run := connect_failures cfg FMT WS_close n self in
  sleeps (h_effects run) = backoff_delay (_maxReconnectDelay cfg) <$> seq 0 n
  ∧ length (connects (h_effects run)) = n
  ∧ _reconnectTries (h_object run) = Z.of_nat n
  ∧ _reconnectDelay (h_object run) = backoff_delay (_maxReconnectDelay cfg) n
  ∧ _WS (h_object run) = None.
Proof.
  intros Hen (Hws & Ht & Hd) Hn Hmax Hdelay. cbv zeta.
  induction n as [|n IH].
  - cbn [connect_failures]. unfold h_effects, h_object. cbn.
    rewrite Ht, Hd, Hws. repeat split.
  - cbn [connect_failures]. unfold mbind, H_bind.
    destruct (connect_failures cfg FMT WS_close n self) as [[[] s] out].
    unfold h_effects, h_object in IH. cbn [fst snd] in IH.
    destruct (IH ltac:(lia)) as (IHs & IHc & IHt & IHd & IHws). clear IH.
    pose proof (backoff_delay_step (_maxReconnectDelay cfg) n Hdelay)
      as (Hd0 & Hd2 & Hnext).
    rewrite hub_onError_disconnected by exact IHws. rewrite Hen.
    assert (isConnected s = false) as Hc by (unfold isConnected; rewrite IHws; reflexivity).
    rewrite reconnect_attempt
      by (exact Hc || (rewrite uint_small by lia; lia)).
    rewrite IHt, IHd. rewrite !uint_small by lia.
    unfold h_effects, h_object. cbn [fst snd].
    cbn [set__reconnectDelay set__reconnectTries set__isReconnecting
         _reconnectTries _reconnectDelay _WS].
    rewrite !sleeps_app, !connects_app, IHs, !length_app, IHc, seq_S, fmap_app.
    split; [|split; [|split; [lia|split; [|exact IHws]]]].
    + destruct (onConnectError s), (onTryReconnect s); reflexivity.
    + destruct (onConnectError s), (onTryReconnect s); cbn; lia.
    + rewrite <- Hnext.
      destruct (Z.ltb_spec (_maxReconnectDelay cfg)
                  (backoff_delay (_maxReconnectDelay cfg) n * 2)); lia.
Qed.

Lemma backoff_sequence_witness :
  let run := connect_failures scenario_settings plain_FMT close_quietly 3 new_client in
  sleeps (h_effects run) = backoff_delay 5 <$> seq 0 3
  ∧ length (connects (h_effects run)) = 3%nat
  ∧ _reconnectTries (h_object run) = Z.of_nat 3
  ∧ _reconnectDelay (h_object run) = backoff_delay 5 3
  ∧ _WS (h_object run) = None.
Proof.
  apply (backoff_sequence scenario_settings plain_FMT close_quietly new_client 3).
  - reflexivity.
  - repeat split.
  - vm_compute. discriminate.
  - reflexivity.
  - vm_compute. split; [discriminate|reflexivity].
Defined.

(** The reconnect scenario of the specification: with at most three attempts
    and delays of at most five seconds the client waits 2, 4 and 5 seconds;
    the fourth failure calls [onReconnectFail] and asks for no connection. *)
Example backoff_scenario :
  let run :=
    connect_failures scenario_settings plain_FMT close_quietly 4
      (with_callbacks new_client) in
  sleeps (h_effects run) = [2; 4; 5]
  ∧ length (connects (h_effects run)) = 3%nat
  ∧ last (h_effects run) = Some CallOnReconnectFail
  ∧ _isReconnecting (h_object run) = false.
Proof. vm_compute. repeat split. Qed.

Lemma reconnect_attempt_backoff_witness :
  let self := set__reconnectDelay 4 (set__reconnectTries 1 (with_callbacks new_client)) in
  let run := _reconnect scenario_settings plain_FMT self in
  h_effects run
  = [SleepFor 4] ++ [CallOnTryReconnect 2]
    ++ [HubConnect _connectURLFmt 5000]
  ∧ _reconnectTries (h_object run) = 2
  ∧ _isReconnecting (h_object run) = true
  ∧ _reconnectDelay (h_object run) = Z.min (4 * 2) 5
  ∧ _reconnectDelay (h_object run) ≤ 5
  ∧ _subbedInstruments (h_object run) = _subbedInstruments self
  ∧ _WS (h_object run) = _WS self.
Proof.
  apply (reconnect_attempt_backoff scenario_settings plain_FMT
           (set__reconnectDelay 4 (set__reconnectTries 1 (with_callbacks new_client))));
    vm_compute; (reflexivity || discriminate).
Defined.

Lemma reconnect_attempts_exhausted_witness :
  let self := set__reconnectTries 3 (with_callbacks new_client) in
  let run := _reconnect scenario_settings plain_FMT self in
  h_effects run = [CallOnReconnectFail]
  ∧ sleeps (h_effects run) = []
  ∧ connects (h_effects run) = []
  ∧ _isReconnecting (h_object run) = false
  ∧ _reconnectTries (h_object run) = 4
  ∧ _reconnectDelay (h_object run) = _reconnectDelay self.
Proof.
  apply (reconnect_attempts_exhausted scenario_settings plain_FMT
           (set__reconnectTries 3 (with_callbacks new_client))).
  - reflexivity.
  - vm_compute. split; [discriminate|reflexivity].
  - reflexivity.
Defined.

Lemma unclean_close_witness :
  let self := connected_client scenario_ledger in
  let run := hub_onDisconnection scenario_settings plain_FMT 1006 [] (with_callbacks self) in
  h_effects run
  = ([Client (CallOnError 1006 "")] ++ [CallOnClose 1006 ""])
    ++ h_effects (_reconnect scenario_settings plain_FMT
                    (set__WS None (with_callbacks self)))
  ∧ h_object run
    = h_object (_reconnect scenario_settings plain_FMT
                  (set__WS None (with_callbacks self))).
Proof.
  intros self.
  destruct (unclean_close scenario_settings plain_FMT 1006 [] (with_callbacks self))
    as [Hre _]; [discriminate|].
  apply Hre; reflexivity.
Defined.

Lemma connect_error_witness :
  let run := hub_onError scenario_settings plain_FMT close_quietly
               (with_callbacks new_client) in
  h_effects run
  = [CallOnConnectError]
    ++ h_effects (_reconnect scenario_settings plain_FMT (with_callbacks new_client))
  ∧ h_object run
    = h_object (_reconnect scenario_settings plain_FMT (with_callbacks new_client)).
Proof.
  destruct (connect_error scenario_settings plain_FMT close_quietly
              (with_callbacks new_client)) as [Hre _]; [reflexivity|].
  apply Hre. reflexivity.
Defined.
